(** * European Alternatives: trust score, catalogue query and validation

    A shallow embedding of
    - [src/utils/trustScore.ts]  (the trust-score calculation),
    - the [filteredAlternatives] pipeline of the browse page, and
    - [scripts/validate-us-vendor-comparisons.cjs] (the build-time check),
    together with the properties the specification states about them.

    JavaScript numbers that the code only adds, subtracts and compares on
    small integer literals are [Z].  JavaScript strings are [string]; each
    [ascii] stands for one UTF-16 code unit below 256, which is the range
    on which [toLowerCase] and [trim] are given here. *)

From Stdlib Require Import ZArith Bool List String Ascii Lia.
From Stdlib Require Import Permutation Sorted OrderedTypeEx.
From stdpp Require Import base gmap strings.
Import ListNotations.

Local Open Scope string_scope.
Local Open Scope Z_scope.

(** ** JavaScript string primitives used by the code *)

Module JsString.

(** Code units with a lower-case mapping, below 256: [A-Z] and the
    Latin-1 capitals U+00C0..U+00DE without the multiplication sign. *)
Definition isUpper (n : nat) : bool :=
  ((65 <=? n)%nat && (n <=? 90)%nat)
  || ((192 <=? n)%nat && (n <=? 222)%nat && negb (n =? 215)%nat).

Definition lowerChar (c : ascii) : ascii :=
  let n := nat_of_ascii c in
  if isUpper n then ascii_of_nat (n + 32) else c.

(** [String.prototype.toLowerCase] on code units below 256, where the
    host lower-cases unit by unit.  Beyond that range it looks at the
    context and can change the length; what is stated of the search and
    of the tags does not depend on how it lower-cases. *)
Fixpoint toLowerCase (s : string) : string :=
  match s with
  | EmptyString => EmptyString
  | String c s' => String (lowerChar c) (toLowerCase s')
  end.

(** White space and line terminators below 256: TAB, LF, VT, FF, CR,
    SPACE and NO-BREAK SPACE. *)
Definition isWhiteSpace (c : ascii) : bool :=
  let n := nat_of_ascii c in
  ((9 <=? n)%nat && (n <=? 13)%nat) || (n =? 32)%nat || (n =? 160)%nat.

Fixpoint trimStart (s : string) : string :=
  match s with
  | EmptyString => EmptyString
  | String c s' => if isWhiteSpace c then trimStart s' else s
  end.

Fixpoint trimEnd (s : string) : string :=
  match s with
  | EmptyString => EmptyString
  | String c s' =>
      match trimEnd s' with
      | EmptyString => if isWhiteSpace c then EmptyString else String c EmptyString
      | t => String c t
      end
  end.

(** [String.prototype.trim] *)
Definition trim (s : string) : string := trimEnd (trimStart s).

(** Truthiness of a string: the empty string is the only falsy one. *)
Definition truthy (s : string) : bool :=
  match s with EmptyString => false | String _ _ => true end.

(** [s.includes(t)]: [t] occurs in [s] as a contiguous run of code units. *)
Fixpoint includes (s t : string) : bool :=
  String.prefix t s
  || match s with
     | EmptyString => false
     | String _ s' => includes s' t
     end.


(** [term] occurs in [field] up to case: some contiguous part of [field]
    has the same lower-casing as [term]. *)
Definition occursIgnoringCase (term field : string) : Prop :=
  exists pre mid post,
    field = pre ++ mid ++ post /\ toLowerCase mid = toLowerCase term.


End JsString.

(** ** Data model ([src/types/index.ts]) *)

Module Reservation.
(** [severity] is ['minor' | 'moderate' | 'major'] in the type; the code
    switches on the run-time string and has a [default] branch. *)
Record t := mk {
  id : string;
  text : string;
  severity : string;
}.
End Reservation.

Module USVendorComparison.
Record t := mk {
  id : string;
  name : string;
  trustScoreStatus : string;
  trustScore : option Z;
  reservations : option (list Reservation.t);
}.
End USVendorComparison.

Module Alternative.
(** The fields read by the score, the query and the validation; the
    presentation-only fields (website, logo, links, ...) are left out. *)
Record t := mk {
  id : string;
  name : string;
  description : string;
  country : string;
  category : string;
  replacesUS : list string;
  usVendorComparisons : option (list USVendorComparison.t);
  isOpenSource : bool;
  openSourceLevel : option string;
  pricing : string;
  selfHostable : option bool;
  tags : list string;
  reservations : option (list Reservation.t);
  trustScore : option Z;
}.
End Alternative.

(** ** [src/utils/trustScore.ts] *)

Module TrustScore.

(** The argument type of [calculateTrustScore]:
    [Pick<Alternative, 'country' | 'isOpenSource' | 'openSourceLevel' | 'tags'>
     & { selfHostable?: boolean; reservations?: Reservation[] }]. *)
Module Input.
Record t := mk {
  country : string;
  isOpenSource : bool;
  openSourceLevel : option string;
  tags : list string;
  selfHostable : option bool;
  reservations : option (list Reservation.t);
}.

(** [{ ...alternative, selfHostable: v }] *)
Definition setSelfHostable (v : option bool) (a : t) : t :=
  mk (country a) (isOpenSource a) (openSourceLevel a) (tags a) v
     (reservations a).

(** [{ ...alternative, reservations: v }] *)
Definition setReservations (v : option (list Reservation.t)) (a : t) : t :=
  mk (country a) (isOpenSource a) (openSourceLevel a) (tags a)
     (selfHostable a) v.

(** The object literal that [getEffectiveTrustScore] passes on. *)
Definition ofAlternative (alternative : Alternative.t) : t :=
  {| country := Alternative.country alternative;
     isOpenSource := Alternative.isOpenSource alternative;
     openSourceLevel := Alternative.openSourceLevel alternative;
     tags := Alternative.tags alternative;
     selfHostable := Alternative.selfHostable alternative;
     reservations := Alternative.reservations alternative |}.
End Input.

Record Breakdown := mkBreakdown {
  jurisdiction : Z;
  openness : Z;
  privacySignals : Z;
  sovereigntyBonus : Z;
  reservationPenalty : Z;
  usCapApplied : bool;
}.

Record CalculatedTrustScore := mkCalculated {
  score : Z;
  breakdown : Breakdown;
}.

Definition euMemberStates : gset string :=
  list_to_set
    ["at"; "be"; "bg"; "hr"; "cy"; "cz"; "dk"; "ee"; "fi"; "fr"; "de"; "gr";
     "hu"; "ie"; "it"; "lv"; "lt"; "lu"; "mt"; "nl"; "pl"; "pt"; "ro"; "sk";
     "si"; "es"; "se"].

Definition europeanNonEU : gset string :=
  list_to_set ["ch"; "no"; "gb"; "is"].

(** The two tag groups are only ever iterated ([Array.from(..).some]), so
    they are kept as the lists the sets are built from. *)
Definition privacyTagGroupPrimary : list string :=
  ["privacy"; "gdpr"; "encryption"; "zero-knowledge"; "no-logs"].

Definition privacyTagGroupSecondary : list string :=
  ["offline"; "federated"; "local"].

(** [set.has(x)] *)
Definition has (s : gset string) (x : string) : bool := bool_decide (x ∈ s).

Definition getJurisdictionScore (country : string) : Z :=
  if has euMemberStates country then 4
  else if has europeanNonEU country then 3
  else if String.eqb country "eu" then 3
  else if String.eqb country "us" then 1
  else 2.

Definition getOpennessScore (alternative : Input.t) : Z :=
  match Input.openSourceLevel alternative with
  | Some level =>
      if String.eqb level "full" then 3
      else if String.eqb level "partial" then 2
      else if String.eqb level "none" then 1
      else if Input.isOpenSource alternative then 2 else 1
  | None => if Input.isOpenSource alternative then 2 else 1
  end.

Definition getPrivacySignalScore (tags : list string) : Z :=
  let normalized : gset string := list_to_set (map JsString.toLowerCase tags) in
  let score := 0 in
  let score :=
    if existsb (fun tag => has normalized tag) privacyTagGroupPrimary
    then score + 1 else score in
  let score :=
    if existsb (fun tag => has normalized tag) privacyTagGroupSecondary
    then score + 1 else score in
  score.

Definition getSovereigntyScore (selfHostable : bool) : Z :=
  if selfHostable then 2 else 0.

Definition getReservationPenalty (reservations : list Reservation.t) : Z :=
  fold_left
    (fun sum reservation =>
       let severity := Reservation.severity reservation in
       if String.eqb severity "major" then sum + 3
       else if String.eqb severity "moderate" then sum + 2
       else sum + 1)
    reservations 0.

Definition clampScore (value : Z) : Z := Z.min 10 (Z.max 1 value).

(** [x ?? d] *)
Definition orElse {A} (x : option A) (d : A) : A :=
  match x with Some v => v | None => d end.

Definition rawScore (alternative : Input.t) : Z :=
  getJurisdictionScore (Input.country alternative)
  + getOpennessScore alternative
  + getPrivacySignalScore (Input.tags alternative)
  + getSovereigntyScore (orElse (Input.selfHostable alternative) false)
  - getReservationPenalty (orElse (Input.reservations alternative) []).

Definition calculateTrustScore (alternative : Input.t) : CalculatedTrustScore :=
  let jurisdiction := getJurisdictionScore (Input.country alternative) in
  let openness := getOpennessScore alternative in
  let privacySignals := getPrivacySignalScore (Input.tags alternative) in
  let sovereigntyBonus :=
    getSovereigntyScore (orElse (Input.selfHostable alternative) false) in
  let reservationPenalty :=
    getReservationPenalty (orElse (Input.reservations alternative) []) in
  let rawScore :=
    jurisdiction + openness + privacySignals + sovereigntyBonus - reservationPenalty in
  let clampedScore := clampScore rawScore in
  let selfHostable := orElse (Input.selfHostable alternative) false in
  let usCapApplied :=
    String.eqb (Input.country alternative) "us" && negb selfHostable
    && (4 <? clampedScore) in
  let score := if usCapApplied then 4 else clampedScore in
  {| score := score;
     breakdown :=
       {| jurisdiction := jurisdiction;
          openness := openness;
          privacySignals := privacySignals;
          sovereigntyBonus := sovereigntyBonus;
          reservationPenalty := reservationPenalty;
          usCapApplied := usCapApplied |} |}.

Definition getEffectiveTrustScore (alternative : Alternative.t) : Z :=
  match Alternative.trustScore alternative with
  | Some trustScore => trustScore
  | None =>
      score (calculateTrustScore (Input.ofAlternative alternative))
  end.

End TrustScore.

(** ** JavaScript array primitives used by the code *)

Module JsArray.

(** [array.includes(x)] on an array of strings. *)
Definition includes (l : list string) (x : string) : bool :=
  existsb (String.eqb x) l.

Section Sort.
Context {A : Type}.
Variable compareFn : A -> A -> Z.

(** [x] goes in front of the first element it does not compare greater
    than, so it stays ahead of later elements that compare equal. *)
Fixpoint insertSorted (x : A) (l : list A) : list A :=
  match l with
  | [] => [x]
  | y :: l' =>
      if compareFn x y <=? 0 then x :: y :: l' else y :: insertSorted x l'
  end.

(** [Array.prototype.sort(compareFn)].  ECMAScript requires the sort to
    be stable; for a consistent comparator that fixes the result, which
    is the one a stable insertion sort computes. *)
Definition sort (l : list A) : list A := fold_right insertSorted [] l.

(** [a] may stand in front of [b] in the sorted array. *)
Definition inOrder (a b : A) : Prop := compareFn a b <= 0.
End Sort.

End JsArray.

(** ** The browse page: [filteredAlternatives] *)

Module SelectedFilters.
Record t := mk {
  category : list string;
  country : list string;
  pricing : list string;
  openSourceOnly : bool;
}.
End SelectedFilters.

Module Browse.

(** [SortBy] is ['trustScore' | 'name' | 'country' | 'category'] in
    [src/types/index.ts]; the comparator switches on the run-time string. *)
Definition SortBy := string.

Definition matchesSearch (term : string) (alt : Alternative.t) : bool :=
  JsString.includes (JsString.toLowerCase (Alternative.name alt)) term
  || JsString.includes (JsString.toLowerCase (Alternative.description alt)) term
  || existsb (fun r => JsString.includes (JsString.toLowerCase r) term)
       (Alternative.replacesUS alt)
  || existsb (fun t => JsString.includes (JsString.toLowerCase t) term)
       (Alternative.tags alt).

Section Query.
(** [String.prototype.localeCompare] depends on the host's collation
    data; the pipeline is given for any such function. *)
Variable localeCompare : string -> string -> Z.

Definition compareAlternatives (sortBy : SortBy) (a b : Alternative.t) : Z :=
  if String.eqb sortBy "name" then
    localeCompare (Alternative.name a) (Alternative.name b)
  else if String.eqb sortBy "country" then
    localeCompare (Alternative.country a) (Alternative.country b)
  else if String.eqb sortBy "category" then
    localeCompare (Alternative.category a) (Alternative.category b)
  else 0.

(** The filters alone: the value of [result] just before [result.sort]. *)
Definition filterStage (alternatives : list Alternative.t)
    (searchTerm : string) (selectedFilters : SelectedFilters.t)
    : list Alternative.t :=
  let result := alternatives in
  let result :=
    if JsString.truthy (JsString.trim searchTerm) then
      let term := JsString.toLowerCase searchTerm in
      List.filter (matchesSearch term) result
    else result in
  let result :=
    if (0 <? List.length (SelectedFilters.category selectedFilters))%nat then
      List.filter
        (fun alt => JsArray.includes (SelectedFilters.category selectedFilters)
                      (Alternative.category alt)) result
    else result in
  let result :=
    if (0 <? List.length (SelectedFilters.country selectedFilters))%nat then
      List.filter
        (fun alt => JsArray.includes (SelectedFilters.country selectedFilters)
                      (Alternative.country alt)) result
    else result in
  let result :=
    if (0 <? List.length (SelectedFilters.pricing selectedFilters))%nat then
      List.filter
        (fun alt => JsArray.includes (SelectedFilters.pricing selectedFilters)
                      (Alternative.pricing alt)) result
    else result in
  let result :=
    if SelectedFilters.openSourceOnly selectedFilters then
      List.filter (fun alt => Alternative.isOpenSource alt) result
    else result in
  result.

Definition filteredAlternatives (alternatives : list Alternative.t)
    (searchTerm : string) (selectedFilters : SelectedFilters.t)
    (sortBy : SortBy) : list Alternative.t :=
  JsArray.sort (compareAlternatives sortBy)
    (filterStage alternatives searchTerm selectedFilters).
End Query.

End Browse.

(** ** [scripts/validate-us-vendor-comparisons.cjs] *)

Module Validate.

Record Result := mkResult {
  failures : list string;
  comparedVendors : nat;
}.

(** [typeof vendor.trustScore] *)
Definition typeofScore (s : option Z) : string :=
  match s with Some _ => "number" | None => "undefined" end.

(** [typeof vendor.trustScore === 'number'] *)
Definition isNumber (s : option Z) : bool :=
  match s with Some _ => true | None => false end.

(** [Object.prototype.hasOwnProperty.call(vendor, 'trustScore')
    && vendor.trustScore !== undefined] *)
Definition hasScore (s : option Z) : bool :=
  match s with Some _ => true | None => false end.

(** The double-quote character that the messages put around values. *)
Definition dq : string := String (ascii_of_nat 34) EmptyString.

(** [failures.push(msg)] *)
Definition push (failures : list string) (msg : string) : list string :=
  (failures ++ [msg])%list.

(** [if (cond) failures.push(msg)] *)
Definition pushIf (cond : bool) (msg : string) (failures : list string)
    : list string :=
  if cond then push failures msg else failures.

(** One turn of the inner loop; the state is [failures], [comparedVendors]
    and [seenIds]. *)
Definition checkVendor (altId : string)
    (st : list string * nat * gset string) (vendor : USVendorComparison.t)
    : list string * nat * gset string :=
  let '(failures, comparedVendors, seenIds) := st in
  let vid := USVendorComparison.id vendor in
  let status := USVendorComparison.trustScoreStatus vendor in
  let comparedVendors := S comparedVendors in
  let failures :=
    pushIf (negb (JsString.truthy (USVendorComparison.name vendor)))
      (altId ++ ": vendor entry has an invalid name.") failures in
  let failures :=
    pushIf (negb (String.eqb status "pending") && negb (String.eqb status "ready"))
      (altId ++ ":" ++ vid ++ " has trustScoreStatus=" ++ dq ++ status ++ dq
         ++ " (expected " ++ dq ++ "pending" ++ dq ++ " or " ++ dq ++ "ready"
         ++ dq ++ ").") failures in
  let failures :=
    pushIf (String.eqb status "ready"
            && negb (isNumber (USVendorComparison.trustScore vendor)))
      (altId ++ ":" ++ vid
         ++ " has trustScoreStatus=" ++ dq ++ "ready" ++ dq
         ++ " but trustScore is not a number (got "
         ++ typeofScore (USVendorComparison.trustScore vendor) ++ ").") failures in
  let failures :=
    pushIf (String.eqb status "pending"
            && hasScore (USVendorComparison.trustScore vendor))
      (altId ++ ":" ++ vid
         ++ " has trustScoreStatus=" ++ dq ++ "pending" ++ dq
         ++ " but unexpectedly has a trustScore value.")
      failures in
  if TrustScore.has seenIds vid then
    (push failures
       (altId ++ ": duplicate vendor id " ++ dq ++ vid ++ dq
          ++ " in usVendorComparisons."),
     comparedVendors, seenIds)
  else (failures, comparedVendors, {[vid]} ∪ seenIds).

(** One turn of the outer loop. *)
Definition checkAlternative (st : list string * nat)
    (alternative : Alternative.t) : list string * nat :=
  let '(failures, comparedVendors) := st in
  let comparisons :=
    TrustScore.orElse (Alternative.usVendorComparisons alternative) [] in
  if (0 <? List.length (Alternative.replacesUS alternative))%nat
     && (List.length comparisons =? 0)%nat
  then
    (push failures
       (Alternative.id alternative
          ++ ": missing usVendorComparisons despite replacesUS entries."),
     comparedVendors)
  else
    let '(failures, comparedVendors, _) :=
      fold_left (checkVendor (Alternative.id alternative)) comparisons
        (failures, comparedVendors, ∅) in
    (failures, comparedVendors).

Definition validateUSVendorComparisons (alternatives : list Alternative.t)
    : Result :=
  let '(failures, comparedVendors) :=
    fold_left checkAlternative alternatives ([], 0%nat) in
  {| failures := failures; comparedVendors := comparedVendors |}.

(** The script's top level: what it prints on [console.error] and the
    status it ends with ([process.exit(1)], or 0 by running to the end).
    The closing [console.log] line of a clean run is left out. *)
Record Outcome := mkOutcome {
  stderr : list string;
  exitStatus : Z;
}.

Definition main (alternatives : list Alternative.t) : Outcome :=
  let r := validateUSVendorComparisons alternatives in
  if (0 <? List.length (failures r))%nat then
    {| stderr := "US vendor comparison validation failed:"
                 :: map (fun failure => "- " ++ failure) (failures r);
       exitStatus := 1 |}
  else {| stderr := []; exitStatus := 0 |}.

(** Case analysis on the conditions of one turn of the inner loop, for a
    goal that says a message is among the failures. *)
Ltac vendor_cases :=
  unfold checkVendor, pushIf, push;
  repeat match goal with
         | |- context [if ?c then _ else _] => destruct c
         end;
  cbn [fst snd]; rewrite ?in_app_iff; cbn [In]; tauto.

End Validate.

(** ** The second copy of the validation script

    The sources hold another revision of the same script (it follows
    [src/types/index.ts]).  Its inner loop checks the reservations of a
    ["ready"] comparison and has no check on ["pending"] ones. *)

Module ValidateSibling.

Import Validate.

Definition checkVendor (altId : string)
    (st : list string * nat * gset string) (vendor : USVendorComparison.t)
    : list string * nat * gset string :=
  let '(failures, comparedVendors, seenIds) := st in
  let vid := USVendorComparison.id vendor in
  let status := USVendorComparison.trustScoreStatus vendor in
  let comparedVendors := S comparedVendors in
  let failures :=
    pushIf (negb (JsString.truthy (USVendorComparison.name vendor)))
      (altId ++ ": vendor entry has an invalid name.") failures in
  let failures :=
    if String.eqb status "ready" then
      let reservations :=
        TrustScore.orElse (USVendorComparison.reservations vendor) [] in
      let failures :=
        pushIf (List.length reservations =? 0)%nat
          (altId ++ ":" ++ vid ++ " has trustScoreStatus=" ++ dq ++ "ready" ++ dq
             ++ " but zero reservations.") failures in
      pushIf (negb (isNumber (USVendorComparison.trustScore vendor)))
        (altId ++ ":" ++ vid ++ " has trustScoreStatus=" ++ dq ++ "ready" ++ dq
           ++ " but missing numeric trustScore.") failures
    else
      pushIf (negb (String.eqb status "pending"))
        (altId ++ ":" ++ vid ++ " has unexpected trustScoreStatus=" ++ dq
           ++ status ++ dq ++ ".") failures in
  if TrustScore.has seenIds vid then
    (push failures
       (altId ++ ": duplicate vendor id " ++ dq ++ vid ++ dq
          ++ " in usVendorComparisons."),
     comparedVendors, seenIds)
  else (failures, comparedVendors, {[vid]} ∪ seenIds).

Definition checkAlternative (st : list string * nat)
    (alternative : Alternative.t) : list string * nat :=
  let '(failures, comparedVendors) := st in
  let comparisons :=
    TrustScore.orElse (Alternative.usVendorComparisons alternative) [] in
  if (0 <? List.length (Alternative.replacesUS alternative))%nat
     && (List.length comparisons =? 0)%nat
  then
    (push failures
       (Alternative.id alternative
          ++ ": missing usVendorComparisons despite replacesUS entries."),
     comparedVendors)
  else
    let '(failures, comparedVendors, _) :=
      fold_left (checkVendor (Alternative.id alternative)) comparisons
        (failures, comparedVendors, ∅) in
    (failures, comparedVendors).

Definition validateUSVendorComparisons (alternatives : list Alternative.t)
    : Result :=
  let '(failures, comparedVendors) :=
    fold_left checkAlternative alternatives ([], 0%nat) in
  {| failures := failures; comparedVendors := comparedVendors |}.

Definition main (alternatives : list Alternative.t) : Outcome :=
  let r := validateUSVendorComparisons alternatives in
  if (0 <? List.length (failures r))%nat then
    {| stderr := "US vendor comparison validation failed:"
                 :: map (fun failure => "- " ++ failure) (failures r);
       exitStatus := 1 |}
  else {| stderr := []; exitStatus := 0 |}.

End ValidateSibling.

(** ** Sample data used by the examples *)

Module Samples.

(** The one entry of [src/data/alternatives.ts]. *)
Definition tuta : Alternative.t :=
  {| Alternative.id := "tuta";
     Alternative.name := "Tuta";
     Alternative.description :=
       "End-to-end encrypted email service built in Germany. Formerly known as Tutanota, Tuta offers secure email, calendar, and contacts with zero-knowledge encryption and post-quantum cryptography.";
     Alternative.country := "de";
     Alternative.category := "email";
     Alternative.replacesUS := ["Gmail"; "Outlook"; "Yahoo Mail"];
     Alternative.usVendorComparisons := None;
     Alternative.isOpenSource := true;
     Alternative.openSourceLevel := None;
     Alternative.pricing := "freemium";
     Alternative.selfHostable := None;
     Alternative.tags :=
       ["encryption"; "privacy"; "GDPR"; "zero-knowledge"; "ad-free"; "post-quantum"];
     Alternative.reservations := None;
     Alternative.trustScore := None |}.

(** A US entry that carries a curated score. *)
Definition usCurated : Alternative.t :=
  {| Alternative.id := "curated";
     Alternative.name := "Curated";
     Alternative.description := "";
     Alternative.country := "us";
     Alternative.category := "other";
     Alternative.replacesUS := [];
     Alternative.usVendorComparisons := None;
     Alternative.isOpenSource := true;
     Alternative.openSourceLevel := None;
     Alternative.pricing := "paid";
     Alternative.selfHostable := Some false;
     Alternative.tags := [];
     Alternative.reservations := None;
     Alternative.trustScore := Some 7 |}.

(** A bare entry to vary. *)
Definition entry (id country : string) : Alternative.t :=
  {| Alternative.id := id;
     Alternative.name := id;
     Alternative.description := "";
     Alternative.country := country;
     Alternative.category := "other";
     Alternative.replacesUS := [];
     Alternative.usVendorComparisons := None;
     Alternative.isOpenSource := false;
     Alternative.openSourceLevel := None;
     Alternative.pricing := "free";
     Alternative.selfHostable := None;
     Alternative.tags := [];
     Alternative.reservations := None;
     Alternative.trustScore := None |}.

Definition input (country : string) (level : option string)
    (tags : list string) (selfHostable : option bool)
    (reservations : option (list Reservation.t)) : TrustScore.Input.t :=
  {| TrustScore.Input.country := country;
     TrustScore.Input.isOpenSource := false;
     TrustScore.Input.openSourceLevel := level;
     TrustScore.Input.tags := tags;
     TrustScore.Input.selfHostable := selfHostable;
     TrustScore.Input.reservations := reservations |}.

(** An entry whose description mentions the word with a capital. *)
Definition mailbox : Alternative.t :=
  {| Alternative.id := "mailbox";
     Alternative.name := "Postfach";
     Alternative.description := "Email hosting from Berlin";
     Alternative.country := "de";
     Alternative.category := "email";
     Alternative.replacesUS := ["Gmail"];
     Alternative.usVendorComparisons := None;
     Alternative.isOpenSource := false;
     Alternative.openSourceLevel := None;
     Alternative.pricing := "paid";
     Alternative.selfHostable := None;
     Alternative.tags := ["GDPR"];
     Alternative.reservations := None;
     Alternative.trustScore := None |}.

(** An entry with the vendor comparisons [vendors] for what it replaces. *)
Definition withVendors (id : string) (replacesUS : list string)
    (vendors : option (list USVendorComparison.t)) : Alternative.t :=
  {| Alternative.id := id;
     Alternative.name := id;
     Alternative.description := "";
     Alternative.country := "de";
     Alternative.category := "email";
     Alternative.replacesUS := replacesUS;
     Alternative.usVendorComparisons := vendors;
     Alternative.isOpenSource := true;
     Alternative.openSourceLevel := None;
     Alternative.pricing := "free";
     Alternative.selfHostable := None;
     Alternative.tags := [];
     Alternative.reservations := None;
     Alternative.trustScore := None |}.

Definition vendor (id status : string) (trustScore : option Z)
    (reservations : option (list Reservation.t)) : USVendorComparison.t :=
  {| USVendorComparison.id := id;
     USVendorComparison.name := id;
     USVendorComparison.trustScoreStatus := status;
     USVendorComparison.trustScore := trustScore;
     USVendorComparison.reservations := reservations |}.

Definition concern : Reservation.t :=
  {| Reservation.id := "cloud-act";
     Reservation.text := "Subject to the CLOUD Act";
     Reservation.severity := "major" |}.

Definition onlyOpenSource : SelectedFilters.t :=
  {| SelectedFilters.category := [];
     SelectedFilters.country := [];
     SelectedFilters.pricing := [];
     SelectedFilters.openSourceOnly := true |}.

(** A comparator to run the pipeline with: code-unit order. *)
Definition codeUnitCompare (a b : string) : Z :=
  match String.compare a b with
  | Lt => -1
  | Eq => 0
  | Gt => 1
  end.

Definition noFilters : SelectedFilters.t :=
  {| SelectedFilters.category := [];
     SelectedFilters.country := [];
     SelectedFilters.pricing := [];
     SelectedFilters.openSourceOnly := false |}.

End Samples.

(** ** Module resolution of the validation script: [resolveTsPath] *)

Module Resolve.

(** A call either returns a path or throws an [Error] with a message. *)
Inductive Outcome :=
| Resolved (path : string)
| Thrown (message : string).

(** [for (const candidate of candidates) if (accept(candidate)) return candidate] *)
Fixpoint firstAccepted (accept : string -> bool) (candidates : list string)
    : option string :=
  match candidates with
  | [] => None
  | candidate :: rest =>
      if accept candidate then Some candidate else firstAccepted accept rest
  end.

Section FileSystem.
(** [path.resolve], [path.join] and the state of the disk as
    [fs.existsSync] and [fs.statSync(..).isFile()] see it. *)
Variable resolve : string -> string -> string.
Variable join : string -> string -> string.
Variable existsSync : string -> bool.
Variable isFile : string -> bool.

Definition candidates (fromDir specifier : string) : list string :=
  let directPath := resolve fromDir specifier in
  [directPath;
   directPath ++ ".ts";
   directPath ++ ".tsx";
   join directPath "index.ts";
   join directPath "index.tsx"].

Definition unresolved (fromDir specifier : string) : string :=
  "Unable to resolve module " ++ Validate.dq ++ specifier ++ Validate.dq
    ++ " from " ++ Validate.dq ++ fromDir ++ Validate.dq ++ ".".

(** [scripts/validate-us-vendor-comparisons.cjs] *)
Definition resolveTsPath (fromDir specifier : string) : Outcome :=
  match firstAccepted existsSync (candidates fromDir specifier) with
  | Some candidate => Resolved candidate
  | None => Thrown (unresolved fromDir specifier)
  end.

(** The second copy of the script: a candidate also has to be a file. *)
Definition resolveTsPathSibling (fromDir specifier : string) : Outcome :=
  match firstAccepted (fun candidate => existsSync candidate && isFile candidate)
          (candidates fromDir specifier) with
  | Some candidate => Resolved candidate
  | None => Thrown (unresolved fromDir specifier)
  end.
End FileSystem.

End Resolve.

(** ** What the validation accepts

    The conditions under which the loops push nothing, read off the
    [if]s of each copy of the script. *)

Module Wellformed.

(** [scripts/validate-us-vendor-comparisons.cjs] *)
Definition vendorOK (v : USVendorComparison.t) : Prop :=
  USVendorComparison.name v <> ""
  /\ ((USVendorComparison.trustScoreStatus v = "pending"
       /\ USVendorComparison.trustScore v = None)
      \/ (USVendorComparison.trustScoreStatus v = "ready"
          /\ USVendorComparison.trustScore v <> None)).

(** The second copy. *)
Definition vendorOKSibling (v : USVendorComparison.t) : Prop :=
  USVendorComparison.name v <> ""
  /\ (USVendorComparison.trustScoreStatus v = "pending"
      \/ (USVendorComparison.trustScoreStatus v = "ready"
          /\ TrustScore.orElse (USVendorComparison.reservations v) [] <> []
          /\ USVendorComparison.trustScore v <> None)).

Definition entryOK (vendorOK : USVendorComparison.t -> Prop)
    (alternative : Alternative.t) : Prop :=
  let comparisons :=
    TrustScore.orElse (Alternative.usVendorComparisons alternative) [] in
  (Alternative.replacesUS alternative = [] \/ comparisons <> [])
  /\ Forall vendorOK comparisons
  /\ List.NoDup (map USVendorComparison.id comparisons).

End Wellformed.

(** ** [getLocalizedAlternativeDescription] *)

Module Localized.

(** An entry together with its [localizedDescriptions?: { de?: string }],
    the one field of [Alternative] this function reads beside
    [description]. *)
Record t := mk {
  alternative : Alternative.t;
  localizedDescriptions : option (option string);
}.

(** [s.startsWith(p)] *)
Definition startsWith (s p : string) : bool := String.prefix p s.

Definition getLocalizedAlternativeDescription (a : t) (language : string)
    : string :=
  let de :=
    match localizedDescriptions a with
    | Some record => record
    | None => None
    end in
  match de with
  | Some text =>
      if startsWith language "de" && JsString.truthy text then text
      else Alternative.description (alternative a)
  | None => Alternative.description (alternative a)
  end.

End Localized.

(** ** [URLSearchParams]

    An ordered list of name-value pairs, with the operations the browse
    page calls. *)

Module UrlSearchParams.

Definition t := list (string * string).

Definition named (name : string) (kv : string * string) : bool :=
  String.eqb (fst kv) name.

(** [params.get(name)]: the first value, or [null]. *)
Definition get (params : t) (name : string) : option string :=
  match List.filter (named name) params with
  | [] => None
  | kv :: _ => Some (snd kv)
  end.

(** [params.getAll(name)] *)
Definition getAll (params : t) (name : string) : list string :=
  map snd (List.filter (named name) params).

(** [params.delete(name)]: every pair of that name goes. *)
Definition delete (name : string) (params : t) : t :=
  List.filter (fun kv => negb (named name kv)) params.

(** [params.append(name, value)] *)
Definition append (name value : string) (params : t) : t :=
  (params ++ [(name, value)])%list.

(** [params.set(name, value)]: the first pair of that name takes the
    value and the others go; without one the pair is appended. *)
Fixpoint set (name value : string) (params : t) : t :=
  match params with
  | [] => [(name, value)]
  | kv :: rest =>
      if named name kv then (name, value) :: delete name rest
      else kv :: set name value rest
  end.

End UrlSearchParams.

(** ** The categories table ([Category] of [src/types/index.ts]) *)

Module Category.
Record t := mk {
  id : string;
  name : string;
  description : string;
  usGiants : list string;
  emoji : string;
}.
End Category.

(** ** The browse page: state and handlers *)

Module BrowsePage.

(** The URL's query, the ref that mirrors it, and the local state. *)
Record State := mkState {
  searchParams : UrlSearchParams.t;
  latestParams : UrlSearchParams.t;
  countryFilters : list string;
  pricingFilters : list string;
  openSourceOnly : bool;
  sortBy : string;
  viewMode : string;
}.

(** The arguments of [handleFilterChange]: the filter and its new value. *)
Inductive FilterChange :=
| category (values : list string)
| country (values : list string)
| pricing (values : list string)
| openSourceOnlyChange (value : bool).

(** What the page renders below the filters. *)
Inductive Body :=
| Grid (cards : list Alternative.t)
| CatalogueComingSoon
| NoResultsFound.

Section Page.
(** [categories] and [alternatives] come from [../data]. *)
Variable categories : list Category.t.
Variable alternatives : list Alternative.t.
Variable localeCompare : string -> string -> Z.

Definition validCategoryIds : gset string :=
  list_to_set (map Category.id categories).

(** The state on arrival at a URL. *)
Definition initial (query : UrlSearchParams.t) : State :=
  {| searchParams := query;
     latestParams := query;
     countryFilters := [];
     pricingFilters := [];
     openSourceOnly := false;
     sortBy := "name";
     viewMode := "grid" |}.

Definition searchTerm (st : State) : string :=
  TrustScore.orElse (UrlSearchParams.get (searchParams st) "q") "".

Definition categoryFilters (st : State) : list string :=
  List.filter (fun c => TrustScore.has validCategoryIds c)
    (UrlSearchParams.getAll (searchParams st) "category").

Definition selectedFilters (st : State) : SelectedFilters.t :=
  {| SelectedFilters.category := categoryFilters st;
     SelectedFilters.country := countryFilters st;
     SelectedFilters.pricing := pricingFilters st;
     SelectedFilters.openSourceOnly := openSourceOnly st |}.

(** [latestParamsRef.current = params; setSearchParams(params)] *)
Definition navigate (params : UrlSearchParams.t) (st : State) : State :=
  {| searchParams := params;
     latestParams := params;
     countryFilters := countryFilters st;
     pricingFilters := pricingFilters st;
     openSourceOnly := openSourceOnly st;
     sortBy := sortBy st;
     viewMode := viewMode st |}.

Definition handleSearchChange (term : string) (st : State) : State :=
  let params := latestParams st in
  let params :=
    if JsString.truthy term then UrlSearchParams.set "q" term params
    else UrlSearchParams.delete "q" params in
  navigate params st.

Definition handleFilterChange (change : FilterChange) (st : State) : State :=
  match change with
  | category values =>
      let params := latestParams st in
      let params := UrlSearchParams.delete "category" params in
      let params :=
        fold_left (fun params cat => UrlSearchParams.append "category" cat params)
          values params in
      navigate params st
  | country values =>
      {| searchParams := searchParams st;
         latestParams := latestParams st;
         countryFilters := values;
         pricingFilters := pricingFilters st;
         openSourceOnly := openSourceOnly st;
         sortBy := sortBy st;
         viewMode := viewMode st |}
  | pricing values =>
      {| searchParams := searchParams st;
         latestParams := latestParams st;
         countryFilters := countryFilters st;
         pricingFilters := values;
         openSourceOnly := openSourceOnly st;
         sortBy := sortBy st;
         viewMode := viewMode st |}
  | openSourceOnlyChange value =>
      {| searchParams := searchParams st;
         latestParams := latestParams st;
         countryFilters := countryFilters st;
         pricingFilters := pricingFilters st;
         openSourceOnly := value;
         sortBy := sortBy st;
         viewMode := viewMode st |}
  end.

Definition handleClearAll (st : State) : State :=
  let params : UrlSearchParams.t := [] in
  let currentQ := UrlSearchParams.get (latestParams st) "q" in
  let params :=
    match currentQ with
    | Some q => if JsString.truthy q then UrlSearchParams.set "q" q params
                else params
    | None => params
    end in
  {| searchParams := params;
     latestParams := params;
     countryFilters := [];
     pricingFilters := [];
     openSourceOnly := false;
     sortBy := sortBy st;
     viewMode := viewMode st |}.

Definition filteredAlternatives (st : State) : list Alternative.t :=
  Browse.filteredAlternatives localeCompare alternatives (searchTerm st)
    (selectedFilters st) (sortBy st).

(** The conditional below [<Filters .. />]. *)
Definition body (st : State) : Body :=
  if (0 <? List.length (filteredAlternatives st))%nat then
    Grid (filteredAlternatives st)
  else if (List.length alternatives =? 0)%nat then CatalogueComingSoon
  else NoResultsFound.
End Page.

End BrowsePage.

(** ** The landing page: the numbers it shows *)

Module Landing.

Section Page.
Variable categories : list Category.t.
Variable alternatives : list Alternative.t.

Definition totalAlternatives : nat := List.length alternatives.

Definition totalCategories : nat :=
  List.length
    (List.filter
       (fun c =>
          existsb (fun a => String.eqb (Alternative.category a) (Category.id c))
            alternatives)
       categories).

Definition totalCountries : nat :=
  size (list_to_set (map Alternative.country alternatives) : gset string).

Definition openSourceCount : nat :=
  List.length (List.filter (fun a => Alternative.isOpenSource a) alternatives).

(** [alternatives[0] ?? null] *)
Definition featured : option Alternative.t := head alternatives.

(** The categories that get a card. *)
Definition cards : list Category.t :=
  List.filter (fun c => negb (String.eqb (Category.id c) "other")) categories.

(** The count on the card of [cat]. *)
Definition count (cat : Category.t) : nat :=
  List.length
    (List.filter
       (fun a => String.eqb (Alternative.category a) (Category.id cat))
       alternatives).

(** The query of the card's link, [/browse?category=${cat.id}], as the
    browse page parses it; the ids are slugs, which a URL carries as
    they are. *)
Definition cardQuery (cat : Category.t) : UrlSearchParams.t :=
  [("category", Category.id cat)].
End Page.

End Landing.

(** ** More sample data *)

Module MoreSamples.

(** What one reservation adds in [getReservationPenalty]. *)
Definition weight (r : Reservation.t) : Z :=
  if String.eqb (Reservation.severity r) "major" then 3
  else if String.eqb (Reservation.severity r) "moderate" then 2
  else 1.

Definition reservation (severity : string) : Reservation.t :=
  {| Reservation.id := "r";
     Reservation.text := "";
     Reservation.severity := severity |}.

Definition emailCategory : Category.t :=
  {| Category.id := "email";
     Category.name := "Email";
     Category.description := "";
     Category.usGiants := ["Gmail"; "Outlook"];
     Category.emoji := "" |}.

Definition otherCategory : Category.t :=
  {| Category.id := "other";
     Category.name := "Other";
     Category.description := "";
     Category.usGiants := [];
     Category.emoji := "" |}.

Definition catalogue : list Alternative.t :=
  [Samples.tuta; Samples.mailbox; Samples.usCurated].

(** A disk that holds the directory [/src/types] and its [index.ts]. *)
Definition resolve (fromDir specifier : string) : string :=
  fromDir ++ "/" ++ specifier.
Definition join (a b : string) : string := a ++ "/" ++ b.
Definition existsSync (p : string) : bool :=
  String.eqb p "/src/types" || String.eqb p "/src/types/index.ts".
Definition isFile (p : string) : bool := String.eqb p "/src/types/index.ts".

End MoreSamples.

(** * Properties *)

(** ** Trust score *)

Module TrustScoreFacts.
Import TrustScore.

Example spec_example_de :
  calculateTrustScore
    (Samples.input "de" (Some "full") ["encryption"; "privacy"] (Some false) (Some []))
  = {| score := 8;
       breakdown := {| jurisdiction := 4; openness := 3; privacySignals := 1;
                       sovereigntyBonus := 0; reservationPenalty := 0;
                       usCapApplied := false |} |}.
Proof. vm_compute. reflexivity. Qed.

Lemma clampScore_range v : 1 <= clampScore v <= 10.
Proof. unfold clampScore. lia. Qed.

Lemma clampScore_cases v :
  (v < 1 -> clampScore v = 1)
  /\ (1 <= v <= 10 -> clampScore v = v)
  /\ (10 < v -> clampScore v = 10).
Proof. unfold clampScore. lia. Qed.

Lemma breakdown_components a :
  let b := breakdown (calculateTrustScore a) in
  jurisdiction b = getJurisdictionScore (Input.country a)
  /\ openness b = getOpennessScore a
  /\ privacySignals b = getPrivacySignalScore (Input.tags a)
  /\ sovereigntyBonus b
     = getSovereigntyScore (orElse (Input.selfHostable a) false)
  /\ reservationPenalty b
     = getReservationPenalty (orElse (Input.reservations a) []).
Proof. cbn. repeat split. Qed.

Lemma score_unfold a :
  score (calculateTrustScore a)
  = if usCapApplied (breakdown (calculateTrustScore a)) then 4
    else clampScore (rawScore a).
Proof. reflexivity. Qed.

Lemma usCapApplied_unfold a :
  usCapApplied (breakdown (calculateTrustScore a))
  = String.eqb (Input.country a) "us"
    && negb (orElse (Input.selfHostable a) false)
    && (4 <? clampScore (rawScore a)).
Proof. reflexivity. Qed.

Lemma usCapApplied_iff a :
  usCapApplied (breakdown (calculateTrustScore a)) = true <->
  Input.country a = "us"
  /\ orElse (Input.selfHostable a) false = false
  /\ 4 < clampScore (rawScore a).
Proof.
  rewrite usCapApplied_unfold, !andb_true_iff, negb_true_iff,
    String.eqb_eq, Z.ltb_lt. tauto.
Qed.

Lemma score_when_capped a :
  usCapApplied (breakdown (calculateTrustScore a)) = true ->
  score (calculateTrustScore a) = 4.
Proof. intros Hcap. rewrite score_unfold, Hcap. reflexivity. Qed.

(** C1.  The score of every entry lies in [1, 10]; the breakdown holds the
    five sub-scores, their signed sum is clamped by [min(10, max(1, raw))],
    and the score is that clamped value unless the US ceiling replaces
    it by 4. *)
Theorem calculateTrustScore_in_range (a : Input.t) :
  let r := calculateTrustScore a in
  let b := breakdown r in
  let raw := jurisdiction b + openness b + privacySignals b
             + sovereigntyBonus b - reservationPenalty b in
  1 <= score r <= 10
  /\ raw = rawScore a
  /\ clampScore raw = Z.min 10 (Z.max 1 raw)
  /\ 1 <= clampScore raw <= 10
  /\ score r = (if usCapApplied b then 4 else clampScore raw).
Proof.
  intros r b raw.
  assert (Hraw : raw = rawScore a) by reflexivity.
  assert (Hclamp := clampScore_range raw).
  assert (Hs : score r = (if usCapApplied b then 4 else clampScore raw))
    by reflexivity.
  split; [|split; [exact Hraw|split; [reflexivity|split; [exact Hclamp|exact Hs]]]].
  rewrite Hs. destruct (usCapApplied b); lia.
Qed.

(** C2.  For a US entry that is not self-hostable, a raw score above 4
    gives score 4 with the flag set; and for every entry the flag is set
    exactly when the country is ['us'], the entry is not self-hostable and
    the clamped score exceeds 4, in which case the score is 4. *)
Theorem us_ceiling_rule (a : Input.t) :
  let r := calculateTrustScore a in
  (Input.country a = "us" ->
   orElse (Input.selfHostable a) false = false ->
   4 < rawScore a ->
   score r = 4 /\ usCapApplied (breakdown r) = true)
  /\ (usCapApplied (breakdown r) = true <->
      Input.country a = "us"
      /\ orElse (Input.selfHostable a) false = false
      /\ 4 < clampScore (rawScore a))
  /\ (usCapApplied (breakdown r) = true -> score r = 4)
  /\ (usCapApplied (breakdown r) = false -> score r = clampScore (rawScore a)).
Proof.
  intros r. unfold r.
  pose proof (usCapApplied_iff a) as Hflag.
  split; [|split; [exact Hflag|split]].
  - intros Hus Hsh Hraw.
    assert (Hcap : usCapApplied (breakdown (calculateTrustScore a)) = true).
    { apply Hflag. repeat split; try assumption. unfold clampScore. lia. }
    rewrite score_unfold, Hcap. split; reflexivity.
  - apply score_when_capped.
  - intros Hcap. rewrite score_unfold, Hcap. reflexivity.
Qed.

Lemma us_ceiling_rule_witness :
  score (calculateTrustScore
           (Samples.input "us" (Some "full") ["privacy"; "offline"] (Some false) None)) = 4
  /\ usCapApplied
       (breakdown
          (calculateTrustScore
             (Samples.input "us" (Some "full") ["privacy"; "offline"] (Some false) None)))
     = true.
Proof.
  apply (proj1 (us_ceiling_rule
                  (Samples.input "us" (Some "full") ["privacy"; "offline"]
                     (Some false) None))).
  - reflexivity.
  - reflexivity.
  - vm_compute. reflexivity.
Defined.

(** C10.  An absent [selfHostable] is read as [false]: no sovereignty
    bonus, the same result as with an explicit [false], and a US entry is
    still capped.  An absent [reservations] is read as the empty list: no
    penalty, the same result as with an explicit empty list. *)
Theorem absent_fields_default (a : Input.t) :
  (Input.selfHostable a = None ->
     sovereigntyBonus (breakdown (calculateTrustScore a)) = 0
     /\ calculateTrustScore a
        = calculateTrustScore (Input.setSelfHostable (Some false) a)
     /\ (Input.country a = "us" -> 4 < clampScore (rawScore a) ->
         usCapApplied (breakdown (calculateTrustScore a)) = true
         /\ score (calculateTrustScore a) = 4))
  /\ (Input.reservations a = None ->
     reservationPenalty (breakdown (calculateTrustScore a)) = 0
     /\ calculateTrustScore a
        = calculateTrustScore (Input.setReservations (Some []) a)).
Proof.
  split.
  - intros Hnone. split; [|split].
    + cbn. rewrite Hnone. reflexivity.
    + unfold calculateTrustScore, getOpennessScore. cbn. rewrite Hnone. reflexivity.
    + intros Hus Hgt.
      assert (Hcap : usCapApplied (breakdown (calculateTrustScore a)) = true).
      { apply usCapApplied_iff. rewrite Hnone. cbn. auto. }
      split; [exact Hcap | exact (score_when_capped a Hcap)].
  - intros Hnone. split.
    + cbn. rewrite Hnone. reflexivity.
    + unfold calculateTrustScore, getOpennessScore. cbn. rewrite Hnone. reflexivity.
Qed.

Lemma absent_fields_default_witness :
  (usCapApplied
     (breakdown
        (calculateTrustScore (Samples.input "us" (Some "full") ["gdpr"] None None)))
   = true
   /\ score (calculateTrustScore (Samples.input "us" (Some "full") ["gdpr"] None None)) = 4)
  /\ reservationPenalty
       (breakdown
          (calculateTrustScore (Samples.input "us" (Some "full") ["gdpr"] None None)))
     = 0.
Proof.
  destruct (absent_fields_default
              (Samples.input "us" (Some "full") ["gdpr"] None None))
    as [Hself Hres].
  split.
  - apply Hself; [reflexivity | reflexivity | vm_compute; reflexivity].
  - apply Hres. reflexivity.
Defined.

(** C3.  A precomputed [trustScore] is returned as it is, whatever the
    other fields hold.  Without one the score is that of
    [calculateTrustScore] on the entry's own [country], [isOpenSource],
    [openSourceLevel], [tags], [selfHostable] and [reservations]: the sum
    of the sub-scores of those fields, clamped and capped; so two entries
    that agree on the six fields get the same score. *)
Theorem effective_score_override (a : Alternative.t) :
  (forall t : Z, Alternative.trustScore a = Some t ->
     getEffectiveTrustScore a = t)
  /\ (Alternative.trustScore a = None ->
     let picked :=
       {| Input.country := Alternative.country a;
          Input.isOpenSource := Alternative.isOpenSource a;
          Input.openSourceLevel := Alternative.openSourceLevel a;
          Input.tags := Alternative.tags a;
          Input.selfHostable := Alternative.selfHostable a;
          Input.reservations := Alternative.reservations a |} in
     let raw :=
       getJurisdictionScore (Alternative.country a)
       + getOpennessScore picked
       + getPrivacySignalScore (Alternative.tags a)
       + getSovereigntyScore (orElse (Alternative.selfHostable a) false)
       - getReservationPenalty (orElse (Alternative.reservations a) []) in
     getEffectiveTrustScore a = score (calculateTrustScore picked)
     /\ getEffectiveTrustScore a
        = (if String.eqb (Alternative.country a) "us"
              && negb (orElse (Alternative.selfHostable a) false)
              && (4 <? clampScore raw)
           then 4 else clampScore raw)
     /\ (forall b : Alternative.t,
          Alternative.trustScore b = None ->
          Alternative.country b = Alternative.country a ->
          Alternative.isOpenSource b = Alternative.isOpenSource a ->
          Alternative.openSourceLevel b = Alternative.openSourceLevel a ->
          Alternative.tags b = Alternative.tags a ->
          Alternative.selfHostable b = Alternative.selfHostable a ->
          Alternative.reservations b = Alternative.reservations a ->
          getEffectiveTrustScore b = getEffectiveTrustScore a)).
Proof.
  unfold getEffectiveTrustScore. split.
  - intros t Ht. rewrite Ht. reflexivity.
  - intros Hnone. cbv zeta. rewrite Hnone.
    split; [reflexivity|]. split; [reflexivity|].
    intros b Hb Hcountry Hopen Hlevel Htags Hself Hres.
    rewrite Hb. unfold Input.ofAlternative.
    rewrite Hcountry, Hopen, Hlevel, Htags, Hself, Hres. reflexivity.
Qed.

Lemma effective_score_override_witness :
  getEffectiveTrustScore Samples.usCurated = 7
  /\ score (calculateTrustScore (Input.ofAlternative Samples.usCurated)) = 3
  /\ getEffectiveTrustScore Samples.tuta = 7
  /\ getEffectiveTrustScore Samples.mailbox = 6.
Proof.
  split; [|split; [|split]].
  - apply (proj1 (effective_score_override Samples.usCurated) 7). reflexivity.
  - vm_compute. reflexivity.
  - rewrite (proj1 (proj2 (proj2 (effective_score_override Samples.tuta) eq_refl))).
    vm_compute. reflexivity.
  - rewrite (proj1 (proj2 (proj2 (effective_score_override Samples.mailbox) eq_refl))).
    vm_compute. reflexivity.
Defined.

(** Membership in a set built from a list, as a boolean. *)
Lemma has_list_to_set (l : list string) (x : string) :
  has (list_to_set l) x = true <-> In x l.
Proof.
  unfold has. rewrite bool_decide_eq_true, elem_of_list_to_set.
  apply list_elem_of_In.
Qed.

Lemma group_hit (group tags : list string) :
  existsb (fun tag => has (list_to_set (map JsString.toLowerCase tags)) tag) group
  = existsb (fun t => JsArray.includes group (JsString.toLowerCase t)) tags.
Proof.
  apply eq_true_iff_eq. rewrite !existsb_exists. split.
  - intros (g & Hg & Hhas). apply has_list_to_set, in_map_iff in Hhas.
    destruct Hhas as (t & Ht & Hin). exists t. split; [exact Hin|].
    unfold JsArray.includes. apply existsb_exists. exists g. split; [exact Hg|].
    apply String.eqb_eq. exact Ht.
  - intros (t & Hin & Hinc). unfold JsArray.includes in Hinc.
    apply existsb_exists in Hinc. destruct Hinc as (g & Hg & Heq).
    apply String.eqb_eq in Heq. exists g. split; [exact Hg|].
    apply has_list_to_set, in_map_iff. exists t. split; [exact Heq | exact Hin].
Qed.

Lemma privacy_score_formula (tags : list string) :
  getPrivacySignalScore tags
  = (if existsb (fun t => JsArray.includes privacyTagGroupPrimary
                            (JsString.toLowerCase t)) tags then 1 else 0)
    + (if existsb (fun t => JsArray.includes privacyTagGroupSecondary
                              (JsString.toLowerCase t)) tags then 1 else 0).
Proof.
  unfold getPrivacySignalScore. rewrite !group_hit.
  destruct (existsb _ tags), (existsb _ tags); reflexivity.
Qed.




Lemma elem_of_literal (c : string) (l : list string) :
  c ∈ (list_to_set l : gset string) <-> In c l.
Proof. rewrite elem_of_list_to_set. apply list_elem_of_In. Qed.

(** C8.  The jurisdiction score is a fixed lookup: 4 on the EU member
    states, 3 on the European non-EU set and on ['eu'], 1 on ['us'] and 2
    on every other code. *)
Theorem jurisdiction_score_lookup (c : string) :
  (c ∈ euMemberStates -> getJurisdictionScore c = 4)
  /\ (c ∈ europeanNonEU -> getJurisdictionScore c = 3)
  /\ (c = "eu" -> getJurisdictionScore c = 3)
  /\ (c = "us" -> getJurisdictionScore c = 1)
  /\ (c ∉ euMemberStates -> c ∉ europeanNonEU -> c <> "eu" -> c <> "us" ->
      getJurisdictionScore c = 2).
Proof.
  split; [|split; [|split; [|split]]].
  - intros Hin. unfold getJurisdictionScore, has.
    rewrite bool_decide_eq_true_2 by exact Hin. reflexivity.
  - intros Hin. unfold europeanNonEU in Hin. apply elem_of_literal in Hin.
    cbn in Hin.
    repeat (destruct Hin as [Hin|Hin]; [subst c; vm_compute; reflexivity|]).
    destruct Hin.
  - intros ->. vm_compute. reflexivity.
  - intros ->. vm_compute. reflexivity.
  - intros Heu Hnon Hnoteu Hnotus. unfold getJurisdictionScore, has.
    rewrite !bool_decide_eq_false_2 by assumption.
    apply String.eqb_neq in Hnoteu, Hnotus. rewrite Hnoteu, Hnotus. reflexivity.
Qed.

Lemma jurisdiction_score_lookup_witness :
  getJurisdictionScore "de" = 4
  /\ getJurisdictionScore "ch" = 3
  /\ getJurisdictionScore "eu" = 3
  /\ getJurisdictionScore "us" = 1
  /\ getJurisdictionScore "ca" = 2.
Proof.
  split; [|split; [|split; [|split]]].
  - apply (proj1 (jurisdiction_score_lookup "de")). vm_compute. reflexivity.
  - apply (proj1 (proj2 (jurisdiction_score_lookup "ch"))). vm_compute. reflexivity.
  - apply (proj1 (proj2 (proj2 (jurisdiction_score_lookup "eu")))). reflexivity.
  - apply (proj1 (proj2 (proj2 (proj2 (jurisdiction_score_lookup "us"))))). reflexivity.
  - apply (proj2 (proj2 (proj2 (proj2 (jurisdiction_score_lookup "ca"))))).
    + vm_compute. discriminate.
    + vm_compute. discriminate.
    + discriminate.
    + discriminate.
Defined.

End TrustScoreFacts.

(** ** Strings *)

Module JsStringFacts.
Import JsString.

Lemma append_cons (c : ascii) (a b : string) :
  String c a ++ b = String c (a ++ b).
Proof. reflexivity. Qed.


Lemma prefix_iff (t s : string) :
  String.prefix t s = true <-> exists post, s = t ++ post.
Proof.
  revert s. induction t as [|c t IH]; intros s.
  - destruct s; cbn; split; eauto.
  - destruct s as [|d s]; cbn.
    + split; [discriminate | intros [post H]; discriminate].
    + destruct (ascii_dec c d) as [->|Hne].
      * rewrite IH. split; intros [post H]; exists post.
        -- rewrite H. reflexivity.
        -- injection H as H. exact H.
      * split; [discriminate|]. intros [post H]. injection H as Hc _.
        congruence.
Qed.

Lemma includes_iff (s t : string) :
  includes s t = true <-> exists pre post, s = pre ++ t ++ post.
Proof.
  induction s as [|c s IH].
  - change (includes "" t) with (String.prefix t "" || false).
    rewrite orb_false_r, prefix_iff. split.
    + intros [post H]. exists "", post. exact H.
    + intros (pre & post & H). destruct pre; [|discriminate].
      exists post. exact H.
  - change (includes (String c s) t)
      with (String.prefix t (String c s) || includes s t).
    rewrite orb_true_iff, prefix_iff, IH. split.
    + intros [[post H] | (pre & post & H)].
      * exists "", post. exact H.
      * exists (String c pre), post. rewrite append_cons, H. reflexivity.
    + intros (pre & post & H). destruct pre as [|d pre].
      * left. exists post. exact H.
      * right. rewrite append_cons in H. injection H as _ H.
        exists pre, post. exact H.
Qed.

Lemma toLowerCase_app (a b : string) :
  toLowerCase (a ++ b) = toLowerCase a ++ toLowerCase b.
Proof.
  induction a as [|c a IH]; [reflexivity|].
  rewrite append_cons. cbn [toLowerCase]. rewrite append_cons, IH. reflexivity.
Qed.

Lemma toLowerCase_split (s x y : string) :
  toLowerCase s = x ++ y ->
  exists a b, s = a ++ b /\ toLowerCase a = x /\ toLowerCase b = y.
Proof.
  revert s. induction x as [|c x IH]; intros s H.
  - exists "", s. auto.
  - destruct s as [|d s]; [discriminate|]. cbn in H. injection H as Hc H.
    destruct (IH s H) as (a & b & -> & Ha & Hb).
    exists (String d a), b. cbn [toLowerCase]. rewrite Hc, Ha. auto.
Qed.

(** On code units below 256 lower-casing goes unit by unit, and there
    the test of the code finds the parts of the field that equal the term
    up to case. *)
Lemma includes_toLowerCase (field term : string) :
  includes (toLowerCase field) (toLowerCase term) = true
  <-> occursIgnoringCase term field.
Proof.
  rewrite includes_iff. unfold occursIgnoringCase. split.
  - intros (pre & post & H).
    apply toLowerCase_split in H. destruct H as (a & r & -> & _ & Hr).
    apply toLowerCase_split in Hr. destruct Hr as (m & b & -> & Hm & _).
    exists a, m, b. auto.
  - intros (pre & mid & post & -> & Hmid).
    exists (toLowerCase pre), (toLowerCase post).
    rewrite !toLowerCase_app, Hmid. reflexivity.
Qed.



Example lower_mixed : toLowerCase "Yahoo Mail" = "yahoo mail".
Proof. reflexivity. Qed.

Example includes_email : includes (toLowerCase "Email hosting") "mail" = true.
Proof. reflexivity. Qed.

(** The term is searched for as typed: a leading blank has to occur in
    the field as well. *)
Example includes_untrimmed :
  includes (toLowerCase "Email hosting") (toLowerCase " mail") = false
  /\ includes (toLowerCase "Yahoo Mail") (toLowerCase " mail") = true.
Proof. split; reflexivity. Qed.

Example trim_blank : trim "   " = "" /\ trim "  a b " = "a b".
Proof. split; reflexivity. Qed.

End JsStringFacts.

(** ** Arrays: [includes] and the stable sort *)

Module JsArrayFacts.
Import JsArray.

Lemma includes_In (l : list string) (x : string) :
  includes l x = true <-> In x l.
Proof.
  unfold includes. rewrite existsb_exists. split.
  - intros (y & Hy & Heq). apply String.eqb_eq in Heq. subst y. exact Hy.
  - intros Hx. exists x. split; [exact Hx | apply String.eqb_refl].
Qed.

Section SortFacts.
Context {A : Type}.
Variable compareFn : A -> A -> Z.

Lemma sort_cons (x : A) (l : list A) :
  sort compareFn (x :: l) = insertSorted compareFn x (sort compareFn l).
Proof. reflexivity. Qed.

Lemma insertSorted_perm (x : A) (l : list A) :
  Permutation (insertSorted compareFn x l) (x :: l).
Proof.
  induction l as [|y l IH]; cbn; [reflexivity|].
  destruct (compareFn x y <=? 0); [reflexivity|].
  rewrite IH. apply perm_swap.
Qed.

(** Sorting rearranges: nothing is lost, added or repeated. *)
Lemma sort_perm (l : list A) : Permutation (sort compareFn l) l.
Proof.
  induction l as [|x l IH]; [reflexivity|].
  rewrite sort_cons, insertSorted_perm. constructor. exact IH.
Qed.

Lemma sort_length (l : list A) :
  List.length (sort compareFn l) = List.length l.
Proof. apply Permutation_length, sort_perm. Qed.

Lemma sort_In (a : A) (l : list A) : In a (sort compareFn l) <-> In a l.
Proof.
  split; apply Permutation_in; [|symmetry]; apply sort_perm.
Qed.

(** A list that is already in order is returned as it is. *)
Lemma sort_sorted_input (l : list A) :
  Sorted (inOrder compareFn) l -> sort compareFn l = l.
Proof.
  induction 1 as [|x l Hs IH Hhd]; [reflexivity|].
  rewrite sort_cons, IH. destruct Hhd as [|y l' Hxy]; [reflexivity|].
  cbn. apply Z.leb_le in Hxy. rewrite Hxy. reflexivity.
Qed.

(** A comparator that answers 0 on every pair leaves the order alone. *)
Lemma sort_noop (l : list A) :
  (forall a b, compareFn a b = 0) -> sort compareFn l = l.
Proof.
  intros Hzero. apply sort_sorted_input.
  induction l as [|x l IH]; constructor; [exact IH|].
  destruct l; constructor. unfold inOrder. rewrite Hzero. lia.
Qed.

(** A consistent comparator in the sense of ECMAScript: swapping the
    arguments flips the sign, and the order it induces is transitive. *)
Section Consistent.
Hypothesis flip : forall a b, compareFn a b <= 0 <-> 0 <= compareFn b a.
Hypothesis trans :
  forall a b c, compareFn a b <= 0 -> compareFn b c <= 0 -> compareFn a c <= 0.

Lemma insertSorted_hd (x y : A) (l : list A) :
  compareFn y x <= 0 -> HdRel (inOrder compareFn) y l -> HdRel (inOrder compareFn) y (insertSorted compareFn x l).
Proof.
  intros Hyx Hhd. destruct l as [|z l]; cbn; [constructor; exact Hyx|].
  destruct (compareFn x z <=? 0); constructor; [exact Hyx|].
  inversion Hhd; assumption.
Qed.

Lemma insertSorted_sorted (x : A) (l : list A) :
  Sorted (inOrder compareFn) l -> Sorted (inOrder compareFn) (insertSorted compareFn x l).
Proof.
  induction 1 as [|y l Hs IH Hhd]; cbn; [repeat constructor|].
  destruct (compareFn x y <=? 0) eqn:Hxy.
  - apply Z.leb_le in Hxy. repeat constructor; assumption.
  - apply Z.leb_gt in Hxy. constructor; [exact IH|].
    apply insertSorted_hd; [|exact Hhd]. unfold inOrder. apply flip. lia.
Qed.

(** The result is in ascending order of the comparator: no element
    compares greater than one that comes after it. *)
Lemma sort_ascending (l : list A) : StronglySorted (inOrder compareFn) (sort compareFn l).
Proof.
  apply Sorted_StronglySorted.
  - intros a b c. apply trans.
  - induction l as [|x l IH]; [constructor|].
    rewrite sort_cons. apply insertSorted_sorted, IH.
Qed.

Lemma equal_keys (k x y : A) :
  compareFn k x = 0 -> compareFn k y = 0 -> compareFn x y <= 0.
Proof.
  intros Hx Hy. apply trans with k; [|lia]. apply flip. lia.
Qed.

Lemma insertSorted_class (k x : A) (l : list A) :
  List.filter (fun y => compareFn k y =? 0) (insertSorted compareFn x l)
  = List.filter (fun y => compareFn k y =? 0) (x :: l).
Proof.
  induction l as [|y l IH]; [reflexivity|].
  cbn [insertSorted]. destruct (compareFn x y <=? 0) eqn:Hxy; [reflexivity|].
  apply Z.leb_gt in Hxy.
  cbn [List.filter] in *. rewrite IH.
  destruct (compareFn k x =? 0) eqn:Hkx; [|reflexivity].
  destruct (compareFn k y =? 0) eqn:Hky; [|reflexivity].
  apply Z.eqb_eq in Hkx, Hky.
  pose proof (equal_keys k x y Hkx Hky). lia.
Qed.

(** Stability: the entries that compare equal to a given one come out
    in the order they went in. *)
Lemma sort_stable (k : A) (l : list A) :
  List.filter (fun y => compareFn k y =? 0) (sort compareFn l)
  = List.filter (fun y => compareFn k y =? 0) l.
Proof.
  induction l as [|x l IH]; [reflexivity|].
  rewrite sort_cons, insertSorted_class.
  cbn [List.filter]. rewrite IH. reflexivity.
Qed.
End Consistent.
End SortFacts.

End JsArrayFacts.

(** ** The browse page *)

Module BrowseFacts.
Import Browse.

Lemma In_cond_filter {A} (c : bool) (p : A -> bool) (l : list A) (a : A) :
  In a (if c then List.filter p l else l) <-> In a l /\ (c = true -> p a = true).
Proof.
  destruct c; [rewrite filter_In|]; intuition congruence.
Qed.

Lemma nonempty_length {A} (l : list A) :
  (0 <? List.length l)%nat = true <-> l <> [].
Proof.
  destruct l; cbn; split; intros H; congruence || reflexivity.
Qed.

(** The same for the search predicate, on code units below 256. *)
Lemma matchesSearch_iff (term : string) (a : Alternative.t) :
  matchesSearch (JsString.toLowerCase term) a = true
  <-> (JsString.occursIgnoringCase term (Alternative.name a)
       \/ JsString.occursIgnoringCase term (Alternative.description a)
       \/ (exists r, In r (Alternative.replacesUS a)
                     /\ JsString.occursIgnoringCase term r)
       \/ (exists t, In t (Alternative.tags a)
                     /\ JsString.occursIgnoringCase term t)).
Proof.
  unfold matchesSearch.
  rewrite !orb_true_iff, !existsb_exists, !JsStringFacts.includes_toLowerCase.
  split.
  - intros [[[H|H]|(r & Hr & H)]|(t & Ht & H)].
    + left; exact H.
    + right; left; exact H.
    + right; right; left. exists r. split; [exact Hr|].
      apply JsStringFacts.includes_toLowerCase, H.
    + right; right; right. exists t. split; [exact Ht|].
      apply JsStringFacts.includes_toLowerCase, H.
  - intros [H|[H|[(r & Hr & H)|(t & Ht & H)]]].
    + left; left; left; exact H.
    + left; left; right; exact H.
    + left; right. exists r. split; [exact Hr|].
      apply JsStringFacts.includes_toLowerCase, H.
    + right. exists t. split; [exact Ht|].
      apply JsStringFacts.includes_toLowerCase, H.
Qed.

(** What passes the five filters. *)
Lemma filterStage_In (alts : list Alternative.t) (term : string)
    (f : SelectedFilters.t) (a : Alternative.t) :
  In a (filterStage alts term f) <->
  In a alts
  /\ (JsString.truthy (JsString.trim term) = true ->
      matchesSearch (JsString.toLowerCase term) a = true)
  /\ (SelectedFilters.category f <> [] ->
      In (Alternative.category a) (SelectedFilters.category f))
  /\ (SelectedFilters.country f <> [] ->
      In (Alternative.country a) (SelectedFilters.country f))
  /\ (SelectedFilters.pricing f <> [] ->
      In (Alternative.pricing a) (SelectedFilters.pricing f))
  /\ (SelectedFilters.openSourceOnly f = true ->
      Alternative.isOpenSource a = true).
Proof.
  unfold filterStage. cbv zeta.
  rewrite !In_cond_filter, !nonempty_length, !JsArrayFacts.includes_In.
  tauto.
Qed.

(** With every filter off the filters hand the catalogue on as it is. *)
Lemma filterStage_inactive (alts : list Alternative.t) (term : string)
    (f : SelectedFilters.t) :
  JsString.truthy (JsString.trim term) = false ->
  SelectedFilters.category f = [] ->
  SelectedFilters.country f = [] ->
  SelectedFilters.pricing f = [] ->
  filterStage alts term f
  = if SelectedFilters.openSourceOnly f
    then List.filter (fun alt => Alternative.isOpenSource alt) alts
    else alts.
Proof.
  intros Hterm Hcat Hcountry Hpricing. unfold filterStage.
  rewrite Hterm, Hcat, Hcountry, Hpricing. reflexivity.
Qed.

Lemma compareAlternatives_default (localeCompare : string -> string -> Z)
    (sortBy : SortBy) (a b : Alternative.t) :
  sortBy <> "name" -> sortBy <> "country" -> sortBy <> "category" ->
  compareAlternatives localeCompare sortBy a b = 0.
Proof.
  intros Hn Hc Hg. unfold compareAlternatives.
  apply String.eqb_neq in Hn, Hc, Hg. rewrite Hn, Hc, Hg. reflexivity.
Qed.

(** A key without a [case] of its own leaves the filtered list as it is. *)
Lemma unsupported_key_keeps_order (localeCompare : string -> string -> Z)
    (alts : list Alternative.t) (term : string) (f : SelectedFilters.t)
    (sortBy : SortBy) :
  sortBy <> "name" -> sortBy <> "country" -> sortBy <> "category" ->
  filteredAlternatives localeCompare alts term f sortBy
  = filterStage alts term f.
Proof.
  intros Hn Hc Hg. unfold filteredAlternatives. apply JsArrayFacts.sort_noop.
  intros a b. apply compareAlternatives_default; assumption.
Qed.




(** C6.  An entry is in the result exactly when it is in the catalogue
    and passes every filter that is switched on.  With every filter off
    the result holds the whole catalogue, entry for entry and of the same
    length, and is the catalogue itself under a key that does not sort.
    With only [openSourceOnly] on, the result holds the open-source
    entries and no other, in catalogue order under such a key. *)
Theorem filters_conjunctive (localeCompare : string -> string -> Z)
    (alts : list Alternative.t) (term : string) (f : SelectedFilters.t)
    (sortBy : SortBy) :
  let result := filteredAlternatives localeCompare alts term f sortBy in
  let blank := JsString.truthy (JsString.trim term) = false in
  let noLists :=
    SelectedFilters.category f = [] /\ SelectedFilters.country f = []
    /\ SelectedFilters.pricing f = [] in
  let noSort :=
    sortBy <> "name" /\ sortBy <> "country" /\ sortBy <> "category" in
  (forall a, In a result <->
     In a alts
     /\ (JsString.truthy (JsString.trim term) = true ->
         matchesSearch (JsString.toLowerCase term) a = true)
     /\ (SelectedFilters.category f <> [] ->
         In (Alternative.category a) (SelectedFilters.category f))
     /\ (SelectedFilters.country f <> [] ->
         In (Alternative.country a) (SelectedFilters.country f))
     /\ (SelectedFilters.pricing f <> [] ->
         In (Alternative.pricing a) (SelectedFilters.pricing f))
     /\ (SelectedFilters.openSourceOnly f = true ->
         Alternative.isOpenSource a = true))
  /\ (blank -> noLists -> SelectedFilters.openSourceOnly f = false ->
      Permutation result alts
      /\ List.length result = List.length alts
      /\ (noSort -> result = alts))
  /\ (blank -> noLists -> SelectedFilters.openSourceOnly f = true ->
      Forall (fun a => Alternative.isOpenSource a = true) result
      /\ Permutation result
           (List.filter (fun a => Alternative.isOpenSource a) alts)
      /\ (noSort ->
          result = List.filter (fun a => Alternative.isOpenSource a) alts)).
Proof.
  intros result blank noLists noSort. unfold result, blank, noLists, noSort.
  split; [|split].
  - intros a. unfold filteredAlternatives.
    rewrite JsArrayFacts.sort_In. apply filterStage_In.
  - intros Hblank (Hcat & Hcountry & Hpricing) Hoss.
    assert (Hstage : filterStage alts term f = alts).
    { rewrite filterStage_inactive by assumption. rewrite Hoss. reflexivity. }
    unfold filteredAlternatives. rewrite Hstage.
    split; [apply JsArrayFacts.sort_perm|].
    split; [apply JsArrayFacts.sort_length|].
    intros (Hn & Hc & Hg). apply JsArrayFacts.sort_noop.
    intros a b. apply compareAlternatives_default; assumption.
  - intros Hblank (Hcat & Hcountry & Hpricing) Hoss.
    assert (Hstage : filterStage alts term f
                     = List.filter (fun a => Alternative.isOpenSource a) alts).
    { rewrite filterStage_inactive by assumption. rewrite Hoss. reflexivity. }
    unfold filteredAlternatives. rewrite Hstage.
    split; [|split; [apply JsArrayFacts.sort_perm|]].
    + apply List.Forall_forall. intros a Ha.
      apply JsArrayFacts.sort_In, filter_In in Ha. apply Ha.
    + intros (Hn & Hc & Hg). apply JsArrayFacts.sort_noop.
      intros a b. apply compareAlternatives_default; assumption.
Qed.

Lemma filters_conjunctive_witness :
  filteredAlternatives Samples.codeUnitCompare
    [Samples.tuta; Samples.mailbox; Samples.usCurated] "" Samples.noFilters
    "trustScore"
  = [Samples.tuta; Samples.mailbox; Samples.usCurated]
  /\ filteredAlternatives Samples.codeUnitCompare
       [Samples.tuta; Samples.mailbox; Samples.usCurated] ""
       Samples.onlyOpenSource "trustScore"
     = [Samples.tuta; Samples.usCurated].
Proof.
  split.
  - apply (proj1 (proj2 (filters_conjunctive Samples.codeUnitCompare
                           [Samples.tuta; Samples.mailbox; Samples.usCurated] ""
                           Samples.noFilters "trustScore"))).
    + reflexivity.
    + repeat split.
    + reflexivity.
    + repeat split; discriminate.
  - apply (proj2 (proj2 (filters_conjunctive Samples.codeUnitCompare
                           [Samples.tuta; Samples.mailbox; Samples.usCurated] ""
                           Samples.onlyOpenSource "trustScore"))).
    + reflexivity.
    + repeat split.
    + reflexivity.
    + repeat split; discriminate.
Defined.

(** The sort comes last: it is applied to what the filters kept. *)
Lemma sort_after_filters (localeCompare : string -> string -> Z)
    (alts : list Alternative.t) (term : string) (f : SelectedFilters.t)
    (sortBy : SortBy) :
  filteredAlternatives localeCompare alts term f sortBy
  = JsArray.sort (compareAlternatives localeCompare sortBy)
      (filterStage alts term f)
  /\ Permutation (filteredAlternatives localeCompare alts term f sortBy)
       (filterStage alts term f).
Proof. split; [reflexivity | apply JsArrayFacts.sort_perm]. Qed.

Section ConsistentCollation.
Variable localeCompare : string -> string -> Z.
Hypothesis flip :
  forall a b, localeCompare a b <= 0 <-> 0 <= localeCompare b a.
Hypothesis trans :
  forall a b c,
    localeCompare a b <= 0 -> localeCompare b c <= 0 -> localeCompare a c <= 0.

Lemma compareAlternatives_flip (sortBy : SortBy) (a b : Alternative.t) :
  compareAlternatives localeCompare sortBy a b <= 0
  <-> 0 <= compareAlternatives localeCompare sortBy b a.
Proof.
  unfold compareAlternatives.
  destruct (String.eqb sortBy "name"); [apply flip|].
  destruct (String.eqb sortBy "country"); [apply flip|].
  destruct (String.eqb sortBy "category"); [apply flip|]. lia.
Qed.

Lemma compareAlternatives_trans (sortBy : SortBy) (a b c : Alternative.t) :
  compareAlternatives localeCompare sortBy a b <= 0 ->
  compareAlternatives localeCompare sortBy b c <= 0 ->
  compareAlternatives localeCompare sortBy a c <= 0.
Proof.
  unfold compareAlternatives.
  destruct (String.eqb sortBy "name"); [apply trans|].
  destruct (String.eqb sortBy "country"); [apply trans|].
  destruct (String.eqb sortBy "category"); [apply trans|]. lia.
Qed.

(** Under a key with a [case] the result is in ascending order of that
    key's comparison, and entries that compare equal keep the order the
    filters left them in. *)
Lemma result_ascending_and_stable (alts : list Alternative.t)
    (term : string) (f : SelectedFilters.t) (sortBy : SortBy) :
  let result := filteredAlternatives localeCompare alts term f sortBy in
  StronglySorted (JsArray.inOrder (compareAlternatives localeCompare sortBy))
    result
  /\ forall k,
       List.filter
         (fun y => compareAlternatives localeCompare sortBy k y =? 0) result
       = List.filter
           (fun y => compareAlternatives localeCompare sortBy k y =? 0)
           (filterStage alts term f).
Proof.
  split.
  - apply JsArrayFacts.sort_ascending;
      [apply compareAlternatives_flip | apply compareAlternatives_trans].
  - intros k. apply JsArrayFacts.sort_stable;
      [apply compareAlternatives_flip | apply compareAlternatives_trans].
Qed.

Lemma sorted_by_name (alts : list Alternative.t) (term : string)
    (f : SelectedFilters.t) :
  StronglySorted
    (fun a b => localeCompare (Alternative.name a) (Alternative.name b) <= 0)
    (filteredAlternatives localeCompare alts term f "name").
Proof.
  exact (proj1 (result_ascending_and_stable alts term f "name")).
Qed.
End ConsistentCollation.

Lemma codeUnitCompare_flip (a b : string) :
  Samples.codeUnitCompare a b <= 0 <-> 0 <= Samples.codeUnitCompare b a.
Proof.
  unfold Samples.codeUnitCompare. rewrite (String.compare_antisym b a).
  destruct (String.compare a b); cbn; lia.
Qed.

Lemma codeUnitCompare_trans (a b c : string) :
  Samples.codeUnitCompare a b <= 0 -> Samples.codeUnitCompare b c <= 0 ->
  Samples.codeUnitCompare a c <= 0.
Proof.
  unfold Samples.codeUnitCompare.
  destruct (String.compare a b) eqn:Hab;
    [apply String.compare_eq_iff in Hab; subst; auto| |lia].
  destruct (String.compare b c) eqn:Hbc;
    [apply String.compare_eq_iff in Hbc; subst; rewrite Hab; auto| |lia].
  intros _ _. apply String_as_OT.cmp_lt in Hab, Hbc.
  pose proof (String_as_OT.lt_trans a b c Hab Hbc) as Hac.
  apply String_as_OT.cmp_lt in Hac.
  unfold String_as_OT.cmp in Hac. rewrite Hac. lia.
Qed.

(** The code-unit order is a consistent comparator, so the results above
    apply to it. *)
Lemma codeUnit_sorted_by_name (alts : list Alternative.t) (term : string)
    (f : SelectedFilters.t) :
  StronglySorted
    (fun a b =>
       Samples.codeUnitCompare (Alternative.name a) (Alternative.name b) <= 0)
    (filteredAlternatives Samples.codeUnitCompare alts term f "name").
Proof.
  apply sorted_by_name; [apply codeUnitCompare_flip | apply codeUnitCompare_trans].
Qed.

Example sort_by_name_example :
  map Alternative.name
    (filteredAlternatives Samples.codeUnitCompare
       [Samples.tuta; Samples.mailbox; Samples.usCurated] ""
       Samples.noFilters "name")
  = ["Curated"; "Postfach"; "Tuta"].
Proof. vm_compute. reflexivity. Qed.

(** C4.  With the key ['trustScore'] the comparator answers 0 on every
    pair, so two entries with scores 2 and 5 come out in the order they
    went in, whichever that was: the result is ordered by score in
    neither direction. *)
Theorem trustScore_key_does_not_sort (localeCompare : string -> string -> Z) :
  let lo := Samples.entry "alpha" "us" in
  let hi := Samples.entry "beta" "de" in
  TrustScore.getEffectiveTrustScore lo = 2
  /\ TrustScore.getEffectiveTrustScore hi = 5
  /\ filteredAlternatives localeCompare [lo; hi] "" Samples.noFilters "trustScore"
     = [lo; hi]
  /\ filteredAlternatives localeCompare [hi; lo] "" Samples.noFilters "trustScore"
     = [hi; lo].
Proof.
  intros lo hi. repeat split; try (vm_compute; reflexivity).
Qed.

End BrowseFacts.

(** ** The validation script *)

Module ValidateFacts.
Import Validate.

(** What a turn of the inner loop adds does not depend on the failures
    and the count it starts from. *)
Lemma checkVendor_shift (altId : string) (fs : list string) (n : nat)
    (seen : gset string) (v : USVendorComparison.t) :
  checkVendor altId (fs, n, seen) v
  = (fs ++ fst (fst (checkVendor altId ([], 0%nat, seen) v)),
     (n + snd (fst (checkVendor altId ([], 0%nat, seen) v)))%nat,
     snd (checkVendor altId ([], 0%nat, seen) v))%list.
Proof.
  unfold checkVendor, pushIf, push.
  repeat match goal with
         | |- context [if ?c then _ else _] => destruct c
         end;
    cbn [fst snd]; rewrite ?app_nil_l, <- ?app_assoc, ?app_nil_r;
    f_equal; f_equal; lia.
Qed.

Lemma vendors_shift (altId : string) (vs : list USVendorComparison.t) :
  forall (fs : list string) (n : nat) (seen : gset string),
    fold_left (checkVendor altId) vs (fs, n, seen)
    = (fs ++ fst (fst (fold_left (checkVendor altId) vs ([], 0%nat, seen))),
       (n + snd (fst (fold_left (checkVendor altId) vs ([], 0%nat, seen))))%nat,
       snd (fold_left (checkVendor altId) vs ([], 0%nat, seen)))%list.
Proof.
  induction vs as [|v vs IH]; intros fs n seen.
  - cbn. rewrite app_nil_r, Nat.add_0_r. reflexivity.
  - cbn [fold_left].
    rewrite (checkVendor_shift altId fs n seen v).
    destruct (checkVendor altId ([], 0%nat, seen) v) as [[f1 n1] s1].
    cbn [fst snd]. rewrite (IH (fs ++ f1)%list (n + n1)%nat s1), (IH f1 n1 s1).
    cbn [fst snd]. rewrite app_assoc, Nat.add_assoc. reflexivity.
Qed.

Lemma checkAlternative_shift (fs : list string) (n : nat)
    (alt : Alternative.t) :
  checkAlternative (fs, n) alt
  = (fs ++ fst (checkAlternative ([], 0%nat) alt),
     (n + snd (checkAlternative ([], 0%nat) alt))%nat)%list.
Proof.
  unfold checkAlternative.
  destruct (_ && _).
  - unfold push. cbn. rewrite Nat.add_0_r. reflexivity.
  - rewrite (vendors_shift _ _ fs n ∅).
    destruct (fold_left _ _ ([], 0%nat, ∅)) as [[f1 n1] s1]. reflexivity.
Qed.

Lemma alternatives_shift (alts : list Alternative.t) :
  forall (fs : list string) (n : nat),
    fold_left checkAlternative alts (fs, n)
    = (fs ++ fst (fold_left checkAlternative alts ([], 0%nat)),
       (n + snd (fold_left checkAlternative alts ([], 0%nat)))%nat)%list.
Proof.
  induction alts as [|a alts IH]; intros fs n.
  - cbn. rewrite app_nil_r, Nat.add_0_r. reflexivity.
  - cbn [fold_left]. rewrite (checkAlternative_shift fs n a).
    destruct (checkAlternative ([], 0%nat) a) as [f1 n1].
    cbn [fst snd]. rewrite (IH (fs ++ f1)%list (n + n1)%nat), (IH f1 n1).
    cbn [fst snd]. rewrite app_assoc, Nat.add_assoc. reflexivity.
Qed.

Lemma failures_fold (alts : list Alternative.t) :
  failures (validateUSVendorComparisons alts)
  = fst (fold_left checkAlternative alts ([], 0%nat)).
Proof.
  unfold validateUSVendorComparisons.
  destruct (fold_left checkAlternative alts ([], 0%nat)). reflexivity.
Qed.

(** The failures of a catalogue are those of its parts, one after the
    other: a failing entry does not stop the entries behind it from being
    checked. *)
Lemma failures_app (xs ys : list Alternative.t) :
  failures (validateUSVendorComparisons (xs ++ ys))
  = (failures (validateUSVendorComparisons xs)
     ++ failures (validateUSVendorComparisons ys))%list.
Proof.
  rewrite !failures_fold, fold_left_app.
  destruct (fold_left checkAlternative xs ([], 0%nat)) as [f1 n1].
  rewrite (alternatives_shift ys f1 n1). reflexivity.
Qed.

Lemma failure_of_entry (alts : list Alternative.t) (alt : Alternative.t)
    (msg : string) :
  In alt alts ->
  In msg (failures (validateUSVendorComparisons [alt])) ->
  In msg (failures (validateUSVendorComparisons alts)).
Proof.
  intros Hin Hmsg. apply in_split in Hin. destruct Hin as (xs & ys & ->).
  change (alt :: ys) with ([alt] ++ ys)%list.
  rewrite !failures_app, !in_app_iff. auto.
Qed.

(** The script ends with a non-zero status exactly when there is a
    failure, and then prints each of them. *)
Lemma exit_status_iff (alts : list Alternative.t) :
  (exitStatus (main alts) <> 0
   <-> failures (validateUSVendorComparisons alts) <> [])
  /\ (exitStatus (main alts) = 0 \/ exitStatus (main alts) = 1)
  /\ (failures (validateUSVendorComparisons alts) <> [] ->
      stderr (main alts)
      = "US vendor comparison validation failed:"
        :: map (fun failure => "- " ++ failure)
             (failures (validateUSVendorComparisons alts))).
Proof.
  unfold main.
  destruct (failures (validateUSVendorComparisons alts)) as [|m ms]; cbn.
  - repeat split; auto; congruence.
  - repeat split; auto; intros; congruence.
Qed.

(** X27.  An entry that replaces US products without any comparison is
    reported, wherever it stands in the catalogue. *)
Lemma missing_comparisons_reported (alts : list Alternative.t)
    (alt : Alternative.t) :
  In alt alts ->
  Alternative.replacesUS alt <> [] ->
  TrustScore.orElse (Alternative.usVendorComparisons alt) [] = [] ->
  In (Alternative.id alt
        ++ ": missing usVendorComparisons despite replacesUS entries.")
     (failures (validateUSVendorComparisons alts)).
Proof.
  intros Hin Hrep Hnone. apply (failure_of_entry alts alt _ Hin).
  rewrite failures_fold. cbn [fold_left]. unfold checkAlternative.
  rewrite Hnone. destruct (Alternative.replacesUS alt); [congruence|].
  cbn. left. reflexivity.
Qed.

Lemma vendors_keep (altId : string) (vs : list USVendorComparison.t)
    (st : list string * nat * gset string) (msg : string) :
  In msg (fst (fst st)) ->
  In msg (fst (fst (fold_left (checkVendor altId) vs st))).
Proof.
  destruct st as [[fs n] seen]. intros Hin.
  rewrite vendors_shift. cbn [fst snd] in *. apply in_app_iff. auto.
Qed.

Lemma vendor_failure_kept (altId : string) (vs : list USVendorComparison.t)
    (v : USVendorComparison.t) (msg : string) :
  In v vs ->
  (forall seen, In msg (fst (fst (checkVendor altId ([], 0%nat, seen) v)))) ->
  forall st, In msg (fst (fst (fold_left (checkVendor altId) vs st))).
Proof.
  intros Hin Hmsg st. apply in_split in Hin. destruct Hin as (xs & ys & ->).
  rewrite fold_left_app. cbn [fold_left]. apply vendors_keep.
  destruct (fold_left (checkVendor altId) xs st) as [[f1 n1] s1].
  rewrite checkVendor_shift. cbn [fst snd]. apply in_app_iff. right. apply Hmsg.
Qed.

Lemma entry_vendor_failure (alts : list Alternative.t) (alt : Alternative.t)
    (v : USVendorComparison.t) (msg : string) :
  In alt alts ->
  In v (TrustScore.orElse (Alternative.usVendorComparisons alt) []) ->
  (forall seen,
     In msg (fst (fst (checkVendor (Alternative.id alt) ([], 0%nat, seen) v)))) ->
  In msg (failures (validateUSVendorComparisons alts)).
Proof.
  intros Hin Hv Hmsg. apply (failure_of_entry alts alt _ Hin).
  rewrite failures_fold. cbn [fold_left]. unfold checkAlternative.
  destruct (TrustScore.orElse (Alternative.usVendorComparisons alt) [])
    as [|v0 vs] eqn:Hvs; [destruct Hv|].
  rewrite andb_false_r.
  pose proof (vendor_failure_kept (Alternative.id alt) (v0 :: vs) v msg Hv Hmsg
                ([], 0%nat, ∅)) as Hkept.
  destruct (fold_left _ (v0 :: vs) _) as [[f1 n1] s1]. exact Hkept.
Qed.

(** X29.  A ["ready"] comparison without a numeric score is reported. *)
Lemma ready_without_score_reported (alts : list Alternative.t)
    (alt : Alternative.t) (v : USVendorComparison.t) :
  In alt alts ->
  In v (TrustScore.orElse (Alternative.usVendorComparisons alt) []) ->
  USVendorComparison.trustScoreStatus v = "ready" ->
  USVendorComparison.trustScore v = None ->
  In (Alternative.id alt ++ ":" ++ USVendorComparison.id v
        ++ " has trustScoreStatus=" ++ dq ++ "ready" ++ dq
        ++ " but trustScore is not a number (got undefined).")
     (failures (validateUSVendorComparisons alts)).
Proof.
  intros Hin Hv Hst Hts. apply (entry_vendor_failure alts alt v _ Hin Hv).
  intros seen. unfold checkVendor. rewrite Hst, Hts.
  change (String.eqb "ready" "ready" && negb (isNumber None)) with true.
  change (typeofScore None) with "undefined".
  vendor_cases.
Qed.

(** X30.  A ["pending"] comparison that carries a score is reported. *)
Lemma pending_with_score_reported (alts : list Alternative.t)
    (alt : Alternative.t) (v : USVendorComparison.t) (t : Z) :
  In alt alts ->
  In v (TrustScore.orElse (Alternative.usVendorComparisons alt) []) ->
  USVendorComparison.trustScoreStatus v = "pending" ->
  USVendorComparison.trustScore v = Some t ->
  In (Alternative.id alt ++ ":" ++ USVendorComparison.id v
        ++ " has trustScoreStatus=" ++ dq ++ "pending" ++ dq
        ++ " but unexpectedly has a trustScore value.")
     (failures (validateUSVendorComparisons alts)).
Proof.
  intros Hin Hv Hst Hts. apply (entry_vendor_failure alts alt v _ Hin Hv).
  intros seen. unfold checkVendor. rewrite Hst, Hts.
  change (String.eqb "pending" "pending" && hasScore (Some t)) with true.
  vendor_cases.
Qed.

Lemma checkVendor_seen (altId : string)
    (st : list string * nat * gset string) (v : USVendorComparison.t) :
  USVendorComparison.id v ∈ snd (checkVendor altId st v)
  /\ (forall x, x ∈ snd st -> x ∈ snd (checkVendor altId st v)).
Proof.
  destruct st as [[fs n] seen]. unfold checkVendor, TrustScore.has.
  case_bool_decide; cbn [snd]; set_solver.
Qed.

Lemma vendors_seen (altId : string) (vs : list USVendorComparison.t) :
  forall st x, x ∈ snd st -> x ∈ snd (fold_left (checkVendor altId) vs st).
Proof.
  induction vs as [|v vs IH]; intros st x Hx; [exact Hx|].
  cbn [fold_left]. apply IH. apply (proj2 (checkVendor_seen altId st v)), Hx.
Qed.

(** X28.  A comparison whose id was seen earlier in the same entry is
    reported. *)
Lemma duplicate_id_reported (alts : list Alternative.t) (alt : Alternative.t)
    (vs1 vs2 vs3 : list USVendorComparison.t) (v1 v2 : USVendorComparison.t) :
  In alt alts ->
  TrustScore.orElse (Alternative.usVendorComparisons alt) []
  = (vs1 ++ v1 :: vs2 ++ v2 :: vs3)%list ->
  USVendorComparison.id v1 = USVendorComparison.id v2 ->
  In (Alternative.id alt ++ ": duplicate vendor id " ++ dq
        ++ USVendorComparison.id v2 ++ dq ++ " in usVendorComparisons.")
     (failures (validateUSVendorComparisons alts)).
Proof.
  intros Hin Hvs Hid. apply (failure_of_entry alts alt _ Hin).
  rewrite failures_fold. cbn [fold_left]. unfold checkAlternative.
  rewrite Hvs.
  replace (List.length (vs1 ++ v1 :: vs2 ++ v2 :: vs3) =? 0)%nat with false
    by (destruct vs1; reflexivity).
  rewrite andb_false_r.
  set (altId := Alternative.id alt).
  assert (Hgoal :
    In (altId ++ ": duplicate vendor id " ++ dq ++ USVendorComparison.id v2
          ++ dq ++ " in usVendorComparisons.")
       (fst (fst (fold_left (checkVendor altId)
                    (vs1 ++ v1 :: vs2 ++ v2 :: vs3) ([], 0%nat, ∅))))).
  { rewrite fold_left_app. cbn [fold_left].
    rewrite fold_left_app. cbn [fold_left]. apply vendors_keep.
    set (st1 := fold_left (checkVendor altId) vs1 ([], 0%nat, ∅)).
    set (st3 := fold_left (checkVendor altId) vs2 (checkVendor altId st1 v1)).
    assert (Hseen : USVendorComparison.id v2 ∈ snd st3).
    { unfold st3. apply vendors_seen. rewrite <- Hid.
      apply (proj1 (checkVendor_seen altId st1 v1)). }
    destruct st3 as [[f3 n3] s3]. cbn [snd] in Hseen.
    unfold checkVendor at 1, TrustScore.has.
    rewrite bool_decide_eq_true_2 by exact Hseen.
    cbn [fst snd]. unfold push. apply in_app_iff. right. left. reflexivity. }
  destruct (fold_left _ _ _) as [[f1 n1] s1]. exact Hgoal.
Qed.

(** C9.  The script lets a ["ready"] comparison without reservations
    pass: no failure, exit status 0.  The other copy of the script reports
    that entry, and lets a ["pending"] comparison with a score pass, which
    this script reports. *)
Theorem ready_without_reservations_passes :
  let ready :=
    [Samples.withVendors "tuta" ["Gmail"]
       (Some [Samples.vendor "gmail" "ready" (Some 3) None])] in
  let pending :=
    [Samples.withVendors "tuta" ["Gmail"]
       (Some [Samples.vendor "gmail" "pending" (Some 5) (Some [Samples.concern])])] in
  failures (validateUSVendorComparisons ready) = []
  /\ exitStatus (main ready) = 0
  /\ failures (ValidateSibling.validateUSVendorComparisons ready)
     = ["tuta:gmail has trustScoreStatus=" ++ dq ++ "ready" ++ dq
          ++ " but zero reservations."]
  /\ exitStatus (ValidateSibling.main ready) = 1
  /\ failures (ValidateSibling.validateUSVendorComparisons pending) = []
  /\ exitStatus (ValidateSibling.main pending) = 0
  /\ failures (validateUSVendorComparisons pending)
     = ["tuta:gmail has trustScoreStatus=" ++ dq ++ "pending" ++ dq
          ++ " but unexpectedly has a trustScore value."]
  /\ exitStatus (main pending) = 1.
Proof.
  intros ready pending. repeat split; vm_compute; reflexivity.
Qed.

End ValidateFacts.

(** ** More on the trust score *)

Module TrustScoreMore.
Import TrustScore.

Lemma penalty_step (sum : Z) (r : Reservation.t) :
  (let severity := Reservation.severity r in
   if String.eqb severity "major" then sum + 3
   else if String.eqb severity "moderate" then sum + 2
   else sum + 1)
  = sum + MoreSamples.weight r.
Proof.
  unfold MoreSamples.weight. cbv zeta.
  destruct (String.eqb _ "major"); [reflexivity|].
  destruct (String.eqb _ "moderate"); reflexivity.
Qed.

Lemma penalty_acc (rs : list Reservation.t) (acc : Z) :
  fold_left
    (fun sum reservation =>
       let severity := Reservation.severity reservation in
       if String.eqb severity "major" then sum + 3
       else if String.eqb severity "moderate" then sum + 2
       else sum + 1) rs acc
  = acc + getReservationPenalty rs.
Proof.
  unfold getReservationPenalty. revert acc.
  induction rs as [|r rs IH]; intros acc; cbn [fold_left]; [lia|].
  rewrite !penalty_step, IH, (IH (0 + _)). lia.
Qed.

Lemma penalty_cons (r : Reservation.t) (rs : list Reservation.t) :
  getReservationPenalty (r :: rs)
  = MoreSamples.weight r + getReservationPenalty rs.
Proof.
  unfold getReservationPenalty at 1. cbn [fold_left].
  rewrite penalty_step, penalty_acc. lia.
Qed.

Lemma penalty_app (rs rs' : list Reservation.t) :
  getReservationPenalty (rs ++ rs')
  = getReservationPenalty rs + getReservationPenalty rs'.
Proof.
  induction rs as [|r rs IH]; [reflexivity|].
  change ((r :: rs) ++ rs')%list with (r :: (rs ++ rs'))%list.
  rewrite !penalty_cons, IH. lia.
Qed.

Lemma penalty_bounds (rs : list Reservation.t) :
  Z.of_nat (List.length rs) <= getReservationPenalty rs
  <= 3 * Z.of_nat (List.length rs).
Proof.
  induction rs as [|r rs IH]; [cbn; lia|].
  rewrite penalty_cons. cbn [List.length]. unfold MoreSamples.weight.
  destruct (String.eqb _ "major"); [lia|].
  destruct (String.eqb _ "moderate"); lia.
Qed.

(** X1.  The reservation penalty adds up over a concatenation of lists,
    and is 3 for each ['major'], 2 for each ['moderate'] and 1 for each
    other reservation, whatever its severity says. *)
Theorem reservation_penalty_counts (rs rs' : list Reservation.t) :
  let isMajor r := String.eqb (Reservation.severity r) "major" in
  let isModerate r := String.eqb (Reservation.severity r) "moderate" in
  getReservationPenalty (rs ++ rs')
  = getReservationPenalty rs + getReservationPenalty rs'
  /\ getReservationPenalty rs
     = 3 * Z.of_nat (List.length (List.filter isMajor rs))
       + 2 * Z.of_nat (List.length (List.filter isModerate rs))
       + Z.of_nat
           (List.length
              (List.filter (fun r => negb (isMajor r) && negb (isModerate r)) rs))
  /\ Z.of_nat (List.length rs) <= getReservationPenalty rs
     <= 3 * Z.of_nat (List.length rs).
Proof.
  intros isMajor isModerate.
  split; [apply penalty_app|]. split; [|apply penalty_bounds].
  induction rs as [|r rs IH]; [reflexivity|].
  rewrite penalty_cons, IH. cbn [List.filter]. unfold MoreSamples.weight, isMajor, isModerate.
  destruct (String.eqb (Reservation.severity r) "major") eqn:Hmaj,
    (String.eqb (Reservation.severity r) "moderate") eqn:Hmod;
    cbn [negb andb List.length]; try lia.
  apply String.eqb_eq in Hmaj, Hmod. rewrite Hmaj in Hmod. discriminate.
Qed.

Lemma jurisdiction_range (c : string) : 1 <= getJurisdictionScore c <= 4.
Proof.
  unfold getJurisdictionScore.
  repeat match goal with
         | |- context [if ?b then _ else _] => destruct b
         end; lia.
Qed.

Lemma openness_range (a : Input.t) : 1 <= getOpennessScore a <= 3.
Proof.
  unfold getOpennessScore.
  destruct (Input.openSourceLevel a);
    repeat match goal with
           | |- context [if ?b then _ else _] => destruct b
           end; lia.
Qed.

Lemma privacy_range (tags : list string) : 0 <= getPrivacySignalScore tags <= 2.
Proof.
  rewrite TrustScoreFacts.privacy_score_formula.
  destruct (existsb _ tags), (existsb _ tags); lia.
Qed.

Lemma sovereignty_range (b : bool) : 0 <= getSovereigntyScore b <= 2.
Proof. destruct b; cbn; lia. Qed.

(** The score as a minimum: the ceiling is [min(4, .)] on US entries that
    are not self-hostable. *)
Lemma score_as_min (a : Input.t) :
  score (calculateTrustScore a)
  = if String.eqb (Input.country a) "us"
       && negb (orElse (Input.selfHostable a) false)
    then Z.min 4 (clampScore (rawScore a))
    else clampScore (rawScore a).
Proof.
  rewrite TrustScoreFacts.score_unfold, TrustScoreFacts.usCapApplied_unfold.
  destruct (String.eqb _ _ && negb _); cbn [andb]; [|reflexivity].
  destruct (4 <? clampScore (rawScore a)) eqn:H.
  - apply Z.ltb_lt in H. lia.
  - apply Z.ltb_ge in H. lia.
Qed.

Lemma rawScore_setReservations (a : Input.t) (rs : list Reservation.t) :
  rawScore (Input.setReservations (Some rs) a)
  = getJurisdictionScore (Input.country a) + getOpennessScore a
    + getPrivacySignalScore (Input.tags a)
    + getSovereigntyScore (orElse (Input.selfHostable a) false)
    - getReservationPenalty rs.
Proof. reflexivity. Qed.

(** X2.  Documenting further reservations never raises an entry's
    score. *)
Theorem more_reservations_never_raise_score (a : Input.t)
    (rs extra : list Reservation.t) :
  score (calculateTrustScore (Input.setReservations (Some (rs ++ extra)%list) a))
  <= score (calculateTrustScore (Input.setReservations (Some rs) a)).
Proof.
  rewrite !score_as_min. cbn [Input.setReservations Input.country Input.selfHostable].
  assert (Hraw :
    rawScore (Input.setReservations (Some (rs ++ extra)%list) a)
    <= rawScore (Input.setReservations (Some rs) a)).
  { rewrite !rawScore_setReservations, penalty_app.
    pose proof (penalty_bounds extra). lia. }
  unfold clampScore.
  destruct (String.eqb _ _ && negb _); lia.
Qed.

(** X3.  Only an explicit level ['full'] earns openness 3: the boolean
    flag alone gives at most 2, and an explicit ['none'] gives 1 even on
    an entry flagged open source. *)
Theorem openness_levels (a : Input.t) :
  1 <= getOpennessScore a <= 3
  /\ (getOpennessScore a = 3 <-> Input.openSourceLevel a = Some "full")
  /\ (Input.openSourceLevel a = Some "none" -> getOpennessScore a = 1)
  /\ (Input.openSourceLevel a = None ->
      getOpennessScore a = if Input.isOpenSource a then 2 else 1).
Proof.
  split; [apply openness_range|]. unfold getOpennessScore.
  destruct (Input.openSourceLevel a) as [level|].
  - destruct (String.eqb level "full") eqn:Hfull.
    + apply String.eqb_eq in Hfull. subst level.
      repeat split; try discriminate; reflexivity.
    + apply String.eqb_neq in Hfull.
      split; [|split].
      * split.
        -- destruct (String.eqb level "partial"); [discriminate|].
           destruct (String.eqb level "none"); [discriminate|].
           destruct (Input.isOpenSource a); discriminate.
        -- intros [= ->]. congruence.
      * intros [= ->]. reflexivity.
      * discriminate.
  - repeat split; try discriminate; try reflexivity.
    destruct (Input.isOpenSource a); discriminate.
Qed.

Lemma openness_levels_witness :
  getOpennessScore (Samples.input "de" (Some "none") [] None None) = 1
  /\ getOpennessScore (Samples.input "de" None [] None None) = 1.
Proof.
  split.
  - apply (proj1 (proj2 (proj2 (openness_levels
                                  (Samples.input "de" (Some "none") [] None None))))).
    reflexivity.
  - apply (proj2 (proj2 (proj2 (openness_levels
                                  (Samples.input "de" None [] None None))))).
    reflexivity.
Defined.

(** X4.  A US entry that is not self-hostable never scores above 4; an
    entry of another country, or a self-hostable one, is never capped. *)
Theorem ceiling_scope (a : Input.t) :
  (Input.country a = "us" -> orElse (Input.selfHostable a) false = false ->
   score (calculateTrustScore a) <= 4)
  /\ (Input.country a <> "us" \/ Input.selfHostable a = Some true ->
      usCapApplied (breakdown (calculateTrustScore a)) = false
      /\ score (calculateTrustScore a) = clampScore (rawScore a)).
Proof.
  split.
  - intros Hus Hsh. rewrite score_as_min, Hus, Hsh. cbn. lia.
  - intros Hor.
    assert (Hflag : usCapApplied (breakdown (calculateTrustScore a)) = false).
    { rewrite TrustScoreFacts.usCapApplied_unfold. destruct Hor as [Hc|Hs].
      - apply String.eqb_neq in Hc. rewrite Hc. reflexivity.
      - rewrite Hs. cbn. rewrite andb_false_r. reflexivity. }
    split; [exact Hflag|]. rewrite TrustScoreFacts.score_unfold, Hflag. reflexivity.
Qed.

Lemma ceiling_scope_witness :
  score (calculateTrustScore
           (Samples.input "us" (Some "full") ["privacy"; "local"] None None)) <= 4
  /\ score (calculateTrustScore
              (Samples.input "us" (Some "full") ["privacy"; "local"] (Some true) None))
     = 8.
Proof.
  split.
  - apply (proj1 (ceiling_scope
                    (Samples.input "us" (Some "full") ["privacy"; "local"] None None)));
      reflexivity.
  - rewrite (proj2 (proj2 (ceiling_scope
                             (Samples.input "us" (Some "full") ["privacy"; "local"]
                                (Some true) None))
                      (or_intror eq_refl))).
    vm_compute. reflexivity.
Defined.

Lemma group_hit_iff (group tags : list string) :
  existsb (fun tag => has (list_to_set (map JsString.toLowerCase tags)) tag) group
  = true
  <-> exists g, In g group /\ In g (map JsString.toLowerCase tags).
Proof.
  rewrite existsb_exists. split; intros (g & Hg & H); exists g; split; auto;
    apply TrustScoreFacts.has_list_to_set; exact H.
Qed.

Lemma lowerChar_idempotent (c : ascii) :
  JsString.lowerChar (JsString.lowerChar c) = JsString.lowerChar c.
Proof.
  destruct c as [[] [] [] [] [] [] [] []]; vm_compute; reflexivity.
Qed.

Lemma toLowerCase_idempotent (s : string) :
  JsString.toLowerCase (JsString.toLowerCase s) = JsString.toLowerCase s.
Proof.
  induction s as [|c s IH]; [reflexivity|].
  cbn [JsString.toLowerCase]. rewrite lowerChar_idempotent, IH. reflexivity.
Qed.

Lemma privacy_same_set (t1 t2 : list string) :
  (forall x, In x (map JsString.toLowerCase t1)
             -> In x (map JsString.toLowerCase t2)) ->
  getPrivacySignalScore t1 <= getPrivacySignalScore t2.
Proof.
  intros Hsub. unfold getPrivacySignalScore.
  assert (Hgroup : forall group,
    existsb (fun tag => has (list_to_set (map JsString.toLowerCase t1)) tag) group
    = true ->
    existsb (fun tag => has (list_to_set (map JsString.toLowerCase t2)) tag) group
    = true).
  { intros group H. apply group_hit_iff in H. destruct H as (g & Hg & Hin).
    apply group_hit_iff. exists g. auto. }
  pose proof (Hgroup privacyTagGroupPrimary) as Hp.
  pose proof (Hgroup privacyTagGroupSecondary) as Hs.
  destruct (existsb _ privacyTagGroupPrimary);
    destruct (existsb _ privacyTagGroupSecondary);
    try (rewrite Hp by reflexivity); try (rewrite Hs by reflexivity);
    repeat match goal with
           | |- context [if ?b then _ else _] => destruct b
           end; lia.
Qed.

(** X5.  The privacy-signal score depends only on the set of lower-cased
    tags: order, repetition and letter case of the tags do not matter, and
    adding tags never lowers it. *)
Theorem privacy_score_tag_set (t1 t2 : list string) :
  ((forall x, In x (map JsString.toLowerCase t1)
              <-> In x (map JsString.toLowerCase t2)) ->
   getPrivacySignalScore t1 = getPrivacySignalScore t2)
  /\ getPrivacySignalScore t1 <= getPrivacySignalScore (t1 ++ t2)
  /\ getPrivacySignalScore (t1 ++ t2) = getPrivacySignalScore (t2 ++ t1)
  /\ getPrivacySignalScore (map JsString.toLowerCase t1)
     = getPrivacySignalScore t1.
Proof.
  split; [|split; [|split]].
  - intros Hsame.
    apply Z.le_antisymm; apply privacy_same_set; intros x; apply Hsame.
  - apply privacy_same_set. intros x. rewrite map_app, in_app_iff. auto.
  - apply Z.le_antisymm; apply privacy_same_set; intros x;
      rewrite !map_app, !in_app_iff; tauto.
  - apply Z.le_antisymm; apply privacy_same_set; intros x;
      rewrite map_map, !in_map_iff;
      intros (t & Ht & Hin); exists t; split; auto.
    + rewrite <- Ht. symmetry. apply toLowerCase_idempotent.
    + rewrite <- Ht. apply toLowerCase_idempotent.
Qed.

Lemma privacy_score_tag_set_witness :
  getPrivacySignalScore ["GDPR"; "gdpr"; "Offline"]
  = getPrivacySignalScore ["offline"; "Gdpr"].
Proof.
  apply (proj1 (privacy_score_tag_set ["GDPR"; "gdpr"; "Offline"] ["offline"; "Gdpr"])).
  intros x. cbn. tauto.
Defined.

(** X6.  Only whole tags count: the privacy-signal score is 0 exactly
    when no tag lower-cases to one of the eight words of the two groups. *)
Theorem privacy_score_zero_iff (tags : list string) :
  getPrivacySignalScore tags = 0
  <-> Forall
        (fun t =>
           JsArray.includes privacyTagGroupPrimary (JsString.toLowerCase t) = false
           /\ JsArray.includes privacyTagGroupSecondary (JsString.toLowerCase t)
              = false)
        tags.
Proof.
  rewrite TrustScoreFacts.privacy_score_formula, List.Forall_forall. split.
  - intros Hzero t Hin.
    destruct (existsb _ tags) eqn:Hp in Hzero;
      destruct (existsb _ tags) eqn:Hs in Hzero; try lia.
    split; apply not_true_is_false; intros Hhit.
    + assert (Hex : existsb (fun t => JsArray.includes privacyTagGroupPrimary
                                        (JsString.toLowerCase t)) tags = true)
        by (apply existsb_exists; exists t; auto).
      congruence.
    + assert (Hex : existsb (fun t => JsArray.includes privacyTagGroupSecondary
                                        (JsString.toLowerCase t)) tags = true)
        by (apply existsb_exists; exists t; auto).
      congruence.
  - intros Hall.
    assert (Hp : existsb (fun t => JsArray.includes privacyTagGroupPrimary
                                     (JsString.toLowerCase t)) tags = false).
    { apply not_true_is_false. intros H. apply existsb_exists in H.
      destruct H as (t & Hin & Hhit). destruct (Hall t Hin). congruence. }
    assert (Hs : existsb (fun t => JsArray.includes privacyTagGroupSecondary
                                     (JsString.toLowerCase t)) tags = false).
    { apply not_true_is_false. intros H. apply existsb_exists in H.
      destruct H as (t & Hin & Hhit). destruct (Hall t Hin). congruence. }
    rewrite Hp, Hs. reflexivity.
Qed.

Example privacy_words_inside_tags :
  getPrivacySignalScore ["privacy-first"; "encrypted"; "localization"] = 0.
Proof. vm_compute. reflexivity. Qed.

(** X7.  With penalty [p] the raw score lies between [2 - p] and
    [11 - p].  So an entry without reservations scores at least 2, and
    reservations that weigh 10 or more pin the score at 1. *)
Theorem raw_score_bounds (a : Input.t) :
  let p := getReservationPenalty (orElse (Input.reservations a) []) in
  2 - p <= rawScore a <= 11 - p
  /\ (p = 0 -> 2 <= score (calculateTrustScore a))
  /\ (10 <= p -> score (calculateTrustScore a) = 1).
Proof.
  intros p.
  assert (Hraw : 2 - p <= rawScore a <= 11 - p).
  { unfold rawScore. fold p.
    pose proof (jurisdiction_range (Input.country a)).
    pose proof (openness_range a).
    pose proof (privacy_range (Input.tags a)).
    pose proof (sovereignty_range (orElse (Input.selfHostable a) false)).
    lia. }
  split; [exact Hraw|]. rewrite score_as_min. unfold clampScore. split; intros Hp.
  - destruct (String.eqb _ _ && negb _); lia.
  - destruct (String.eqb _ _ && negb _); lia.
Qed.

Lemma raw_score_bounds_witness :
  2 <= score (calculateTrustScore (Samples.input "us" None [] None None))
  /\ score (calculateTrustScore
              (Samples.input "de" (Some "full") ["privacy"; "local"] (Some true)
                 (Some [MoreSamples.reservation "major";
                        MoreSamples.reservation "major";
                        MoreSamples.reservation "major";
                        MoreSamples.reservation "typo"])))
     = 1.
Proof.
  split.
  - apply (proj1 (proj2 (raw_score_bounds
                           (Samples.input "us" None [] None None)))).
    reflexivity.
  - apply (proj2 (proj2 (raw_score_bounds
                           (Samples.input "de" (Some "full") ["privacy"; "local"]
                              (Some true)
                              (Some [MoreSamples.reservation "major";
                                     MoreSamples.reservation "major";
                                     MoreSamples.reservation "major";
                                     MoreSamples.reservation "typo"]))))).
    vm_compute. discriminate.
Defined.

(** X8.  The effective score is in [1, 10] whenever the curated score,
    if there is one, is: a curated score is handed on without clamping. *)
Theorem effective_score_range (a : Alternative.t) :
  (forall t, Alternative.trustScore a = Some t -> 1 <= t <= 10) ->
  1 <= getEffectiveTrustScore a <= 10.
Proof.
  intros Hcurated. unfold getEffectiveTrustScore.
  destruct (Alternative.trustScore a) as [t|].
  - apply Hcurated. reflexivity.
  - rewrite score_as_min. unfold clampScore.
    destruct (String.eqb _ _ && negb _); lia.
Qed.

Lemma effective_score_range_witness :
  1 <= getEffectiveTrustScore Samples.usCurated <= 10.
Proof.
  apply effective_score_range. intros t [= <-]. lia.
Defined.

End TrustScoreMore.

(** ** More on the validation script *)

Module ValidateMore.
Import Validate.

(** Both copies of the script run the same two loops around their own
    checks on one comparison; what follows holds for any such checks. *)
Section Loops.
Variable checkV :
  string -> list string * nat * gset string -> USVendorComparison.t ->
  list string * nat * gset string.
Variable checkA : list string * nat -> Alternative.t -> list string * nat.
Variable validate : list Alternative.t -> Result.
Variable vendorOK : USVendorComparison.t -> Prop.

Hypothesis checkV_shift : forall altId fs n seen v,
  checkV altId (fs, n, seen) v
  = ((fs ++ fst (fst (checkV altId ([], 0%nat, seen) v)))%list, S n,
     {[USVendorComparison.id v]} ∪ seen).
Hypothesis checkV_clean : forall altId seen v,
  fst (fst (checkV altId ([], 0%nat, seen) v)) = []
  <-> vendorOK v /\ USVendorComparison.id v ∉ seen.
Hypothesis checkA_body : forall fs n alt,
  checkA (fs, n) alt
  = let comparisons :=
      TrustScore.orElse (Alternative.usVendorComparisons alt) [] in
    if (0 <? List.length (Alternative.replacesUS alt))%nat
       && (List.length comparisons =? 0)%nat
    then
      (push fs
         (Alternative.id alt
            ++ ": missing usVendorComparisons despite replacesUS entries."),
       n)
    else
      let '(failures, comparedVendors, _) :=
        fold_left (checkV (Alternative.id alt)) comparisons (fs, n, ∅) in
      (failures, comparedVendors).
Hypothesis validate_body : forall alts,
  validate alts
  = let '(failures, comparedVendors) :=
      fold_left checkA alts ([], 0%nat) in
    {| failures := failures; comparedVendors := comparedVendors |}.

Lemma inner_loop (altId : string) (vs : list USVendorComparison.t) :
  forall fs n seen,
  exists more seen',
    fold_left (checkV altId) vs (fs, n, seen)
    = ((fs ++ more)%list, (n + List.length vs)%nat, seen')
    /\ (more = [] <->
        Forall vendorOK vs
        /\ List.NoDup (map USVendorComparison.id vs)
        /\ (forall v, In v vs -> USVendorComparison.id v ∉ seen)).
Proof.
  induction vs as [|v vs IH]; intros fs n seen.
  - exists [], seen. rewrite app_nil_r, Nat.add_0_r. split; [reflexivity|].
    split; [|reflexivity]. intros _. repeat split; try constructor.
    intros v [].
  - cbn [fold_left]. rewrite checkV_shift.
    set (m1 := fst (fst (checkV altId ([], 0%nat, seen) v))).
    destruct (IH (fs ++ m1)%list (S n) ({[USVendorComparison.id v]} ∪ seen))
      as (m2 & seen' & Hfold & Hclean).
    exists (m1 ++ m2)%list, seen'. split.
    + rewrite Hfold, app_assoc. cbn [List.length]. f_equal. f_equal. lia.
    + pose proof (checkV_clean altId seen v) as Hv. fold m1 in Hv.
      split.
      * intros Hnil. apply app_eq_nil in Hnil. destruct Hnil as [H1 H2].
        apply Hv in H1. apply Hclean in H2.
        destruct H1 as [Hok Hfresh]. destruct H2 as (Hall & Hnd & Hseen).
        repeat split.
        -- constructor; assumption.
        -- cbn [map]. constructor; [|exact Hnd].
           intros Hin. apply in_map_iff in Hin. destruct Hin as (w & Hw & Hin).
           apply (Hseen w Hin). rewrite Hw.
           apply elem_of_union. left. apply elem_of_singleton. reflexivity.
        -- intros w [<-|Hin]; [exact Hfresh|].
           intros Hw. apply (Hseen w Hin). apply elem_of_union. right. exact Hw.
      * intros (Hall & Hnd & Hseen).
        inversion Hall as [|? ? Hok Hall']; subst.
        cbn [map] in Hnd. inversion Hnd as [|? ? Hnotin Hnd']; subst.
        assert (H1 : m1 = []).
        { apply Hv. split; [exact Hok|]. apply Hseen. left. reflexivity. }
        assert (H2 : m2 = []).
        { apply Hclean. repeat split; try assumption.
          intros w Hin Hw. apply elem_of_union in Hw. destruct Hw as [Hw|Hw].
          - apply elem_of_singleton in Hw. apply Hnotin.
            rewrite <- Hw. apply in_map. exact Hin.
          - apply (Hseen w); [right; exact Hin | exact Hw]. }
        rewrite H1, H2. reflexivity.
Qed.

Lemma entry_step (fs : list string) (n : nat) (alt : Alternative.t) :
  exists more,
    checkA (fs, n) alt
    = ((fs ++ more)%list,
       (n + List.length
              (TrustScore.orElse (Alternative.usVendorComparisons alt) []))%nat)
    /\ (more = [] <-> Wellformed.entryOK vendorOK alt).
Proof.
  rewrite checkA_body. cbv zeta. unfold Wellformed.entryOK.
  set (comparisons := TrustScore.orElse (Alternative.usVendorComparisons alt) []).
  destruct ((0 <? List.length (Alternative.replacesUS alt))%nat
            && (List.length comparisons =? 0)%nat) eqn:Hcond.
  - apply andb_true_iff in Hcond. destruct Hcond as [Hrep Hlen].
    apply Nat.ltb_lt in Hrep. apply Nat.eqb_eq in Hlen.
    eexists. split.
    + unfold push. rewrite Hlen, Nat.add_0_r. reflexivity.
    + split; [discriminate|]. intros ([Hnil|Hne] & _).
      * rewrite Hnil in Hrep. cbn in Hrep. lia.
      * destruct comparisons; [congruence | discriminate].
  - destruct (inner_loop (Alternative.id alt) comparisons fs n ∅)
      as (more & seen' & Hfold & Hclean).
    exists more. rewrite Hfold. split; [reflexivity|].
    rewrite Hclean. apply andb_false_iff in Hcond.
    split.
    + intros (Hall & Hnd & _). repeat split; try assumption.
      destruct Hcond as [Hrep|Hlen].
      * apply Nat.ltb_ge in Hrep. left.
        destruct (Alternative.replacesUS alt); [reflexivity | cbn in Hrep; lia].
      * apply Nat.eqb_neq in Hlen. right. intros Hnil. rewrite Hnil in Hlen.
        apply Hlen. reflexivity.
    + intros (_ & Hall & Hnd). repeat split; try assumption.
      intros v _. apply not_elem_of_empty.
Qed.

Lemma outer_loop (alts : list Alternative.t) :
  forall fs n,
  exists more,
    fold_left checkA alts (fs, n)
    = ((fs ++ more)%list,
       (n + list_sum
              (map (fun alt =>
                      List.length
                        (TrustScore.orElse
                           (Alternative.usVendorComparisons alt) []))
                 alts))%nat)
    /\ (more = [] <-> Forall (Wellformed.entryOK vendorOK) alts).
Proof.
  induction alts as [|alt alts IH]; intros fs n.
  - exists []. rewrite app_nil_r. cbn. rewrite Nat.add_0_r.
    split; [reflexivity|]. split; [constructor | reflexivity].
  - cbn [fold_left].
    destruct (entry_step fs n alt) as (m1 & Hstep & Hok).
    rewrite Hstep.
    destruct (IH (fs ++ m1)%list
                (n + List.length
                       (TrustScore.orElse
                          (Alternative.usVendorComparisons alt) []))%nat)
      as (m2 & Hfold & Hall).
    exists (m1 ++ m2)%list. rewrite Hfold. split.
    + rewrite app_assoc. f_equal. cbn [map]. unfold list_sum at 2.
      cbn [fold_right]. fold (list_sum
        (map (fun alt0 => List.length
                (TrustScore.orElse (Alternative.usVendorComparisons alt0) []))
           alts)). lia.
    + split.
      * intros Hnil. apply app_eq_nil in Hnil. destruct Hnil as [H1 H2].
        constructor; [apply Hok, H1 | apply Hall, H2].
      * intros HF. inversion HF as [|? ? Ha Hrest]; subst.
        apply Hok in Ha. apply Hall in Hrest. rewrite Ha, Hrest. reflexivity.
Qed.

Lemma validate_clean (alts : list Alternative.t) :
  (failures (validate alts) = []
   <-> Forall (Wellformed.entryOK vendorOK) alts)
  /\ comparedVendors (validate alts)
     = list_sum
         (map (fun alt =>
                 List.length
                   (TrustScore.orElse (Alternative.usVendorComparisons alt) []))
            alts).
Proof.
  rewrite validate_body.
  destruct (outer_loop alts [] 0%nat) as (more & Hfold & Hall).
  rewrite Hfold. cbn [failures comparedVendors app Nat.add]. split; [exact Hall | reflexivity].
Qed.
Lemma inner_keeps (altId : string) (vs : list USVendorComparison.t)
    (fs : list string) (n : nat) (seen : gset string) (msg : string) :
  In msg fs -> In msg (fst (fst (fold_left (checkV altId) vs (fs, n, seen)))).
Proof.
  intros Hin. destruct (inner_loop altId vs fs n seen) as (more & s' & -> & _).
  cbn [fst]. apply in_app_iff. left. exact Hin.
Qed.

Lemma inner_reports (altId : string) (vs : list USVendorComparison.t)
    (v : USVendorComparison.t) (msg : string) :
  In v vs ->
  (forall seen, In msg (fst (fst (checkV altId ([], 0%nat, seen) v)))) ->
  forall fs n seen,
    In msg (fst (fst (fold_left (checkV altId) vs (fs, n, seen)))).
Proof.
  intros Hv Hmsg. induction vs as [|w vs IH]; [destruct Hv|].
  intros fs n seen. cbn [fold_left]. rewrite checkV_shift.
  destruct Hv as [->|Hv].
  - apply inner_keeps. apply in_app_iff. right. apply Hmsg.
  - apply IH. exact Hv.
Qed.

Lemma outer_keeps (alts : list Alternative.t) (fs : list string) (n : nat)
    (msg : string) :
  In msg fs -> In msg (fst (fold_left checkA alts (fs, n))).
Proof.
  intros Hin. destruct (outer_loop alts fs n) as (more & -> & _).
  cbn [fst]. apply in_app_iff. left. exact Hin.
Qed.

Lemma outer_reports (alts : list Alternative.t) (alt : Alternative.t)
    (msg : string) :
  In alt alts ->
  (forall fs n, In msg (fst (checkA (fs, n) alt))) ->
  In msg (failures (validate alts)).
Proof.
  intros Hin Hmsg. rewrite validate_body.
  assert (Hgoal : forall fs n, In msg (fst (fold_left checkA alts (fs, n)))).
  { induction alts as [|a alts IH]; [destruct Hin|].
    intros fs n. cbn [fold_left]. destruct Hin as [->|Hin].
    - specialize (Hmsg fs n). destruct (checkA (fs, n) alt) as [f1 n1].
      apply outer_keeps. exact Hmsg.
    - destruct (checkA (fs, n) a) as [f1 n1]. apply IH. exact Hin. }
  specialize (Hgoal [] 0%nat).
  destruct (fold_left checkA alts ([], 0%nat)). exact Hgoal.
Qed.

(** A message that the checks on [v] always give is among the failures
    of every catalogue with an entry that holds [v]. *)
Lemma vendor_reports (alts : list Alternative.t) (alt : Alternative.t)
    (v : USVendorComparison.t) (msg : string) :
  In alt alts ->
  In v (TrustScore.orElse (Alternative.usVendorComparisons alt) []) ->
  (forall seen,
     In msg (fst (fst (checkV (Alternative.id alt) ([], 0%nat, seen) v)))) ->
  In msg (failures (validate alts)).
Proof.
  intros Hin Hv Hmsg. apply (outer_reports alts alt msg Hin).
  intros fs n. rewrite checkA_body. cbv zeta.
  destruct (TrustScore.orElse (Alternative.usVendorComparisons alt) [])
    as [|v0 vs] eqn:Hvs; [destruct Hv|].
  rewrite andb_false_r.
  pose proof (inner_reports (Alternative.id alt) (v0 :: vs) v msg Hv Hmsg fs n ∅)
    as Hrep.
  destruct (fold_left _ (v0 :: vs) _) as [[f1 n1] s1]. exact Hrep.
Qed.
End Loops.

Ltac eqb_props :=
  repeat match goal with
         | H : String.eqb _ _ = true |- _ => apply String.eqb_eq in H
         | H : String.eqb _ _ = false |- _ => apply String.eqb_neq in H
         end.

Lemma seen_after (seen : gset string) (vid : string) :
  (if TrustScore.has seen vid then seen else {[vid]} ∪ seen) = {[vid]} ∪ seen.
Proof.
  unfold TrustScore.has. case_bool_decide as Hin; [|reflexivity].
  apply set_eq. intros x. rewrite elem_of_union, elem_of_singleton.
  split; [auto|]. intros [->|Hx]; assumption.
Qed.

Lemma script_shift altId fs n seen v :
  checkVendor altId (fs, n, seen) v
  = ((fs ++ fst (fst (checkVendor altId ([], 0%nat, seen) v)))%list, S n,
     {[USVendorComparison.id v]} ∪ seen).
Proof.
  rewrite ValidateFacts.checkVendor_shift.
  rewrite <- (seen_after seen (USVendorComparison.id v)).
  unfold checkVendor. destruct (TrustScore.has seen _); cbn [fst snd];
    rewrite Nat.add_1_r; reflexivity.
Qed.

Lemma script_clean altId seen v :
  fst (fst (checkVendor altId ([], 0%nat, seen) v)) = []
  <-> Wellformed.vendorOK v /\ USVendorComparison.id v ∉ seen.
Proof.
  unfold checkVendor, pushIf, push, Wellformed.vendorOK, TrustScore.has,
    isNumber, hasScore.
  destruct (USVendorComparison.name v) as [|c name] eqn:Hname;
    destruct (String.eqb (USVendorComparison.trustScoreStatus v) "pending") eqn:Hp;
    destruct (String.eqb (USVendorComparison.trustScoreStatus v) "ready") eqn:Hr;
    destruct (USVendorComparison.trustScore v) as [t|] eqn:Ht;
    case_bool_decide as Hseen;
    cbn [JsString.truthy negb andb fst snd app]; eqb_props;
    (split; [intros H; try discriminate H | intros (Hok & Hfresh)]);
    try (exfalso; intuition congruence);
    try reflexivity;
    repeat split; try discriminate; try assumption; auto.
Qed.

(** X9.  The script reports nothing exactly on a catalogue in which every
    entry that replaces US products has a comparison, every comparison
    has a name, is ["pending"] without a score or ["ready"] with one, and
    no comparison id occurs twice in an entry; it then ends with status 0
    and otherwise with status 1. *)
Theorem script_accepts_iff (alts : list Alternative.t) :
  (failures (validateUSVendorComparisons alts) = []
   <-> Forall (Wellformed.entryOK Wellformed.vendorOK) alts)
  /\ (exitStatus (main alts) = 0
      <-> Forall (Wellformed.entryOK Wellformed.vendorOK) alts)
  /\ (exitStatus (main alts) = 1
      <-> ~ Forall (Wellformed.entryOK Wellformed.vendorOK) alts).
Proof.
  pose proof (proj1 (validate_clean checkVendor checkAlternative
                       validateUSVendorComparisons Wellformed.vendorOK
                       script_shift script_clean
                       (fun fs n alt => eq_refl) (fun alts => eq_refl) alts))
    as Hclean.
  split; [exact Hclean|]. rewrite <- Hclean. unfold main.
  destruct (failures (validateUSVendorComparisons alts)); cbn;
    split; split; intros H; try reflexivity; try discriminate; try congruence.
Qed.

Lemma sibling_shift altId fs n seen v :
  ValidateSibling.checkVendor altId (fs, n, seen) v
  = ((fs ++ fst (fst (ValidateSibling.checkVendor altId ([], 0%nat, seen) v)))%list,
     S n, {[USVendorComparison.id v]} ∪ seen).
Proof.
  rewrite <- (seen_after seen (USVendorComparison.id v)).
  unfold ValidateSibling.checkVendor, pushIf, push.
  repeat match goal with
         | |- context [if ?c then _ else _] => destruct c
         end;
    cbn [fst snd]; rewrite ?app_nil_l, <- ?app_assoc, ?app_nil_r; reflexivity.
Qed.

Lemma sibling_clean altId seen v :
  fst (fst (ValidateSibling.checkVendor altId ([], 0%nat, seen) v)) = []
  <-> Wellformed.vendorOKSibling v /\ USVendorComparison.id v ∉ seen.
Proof.
  unfold ValidateSibling.checkVendor, pushIf, push, Wellformed.vendorOKSibling,
    TrustScore.has, isNumber.
  destruct (USVendorComparison.name v) as [|c name] eqn:Hname;
    destruct (String.eqb (USVendorComparison.trustScoreStatus v) "pending") eqn:Hp;
    destruct (String.eqb (USVendorComparison.trustScoreStatus v) "ready") eqn:Hr;
    destruct (USVendorComparison.trustScore v) as [t|] eqn:Ht;
    destruct (TrustScore.orElse (USVendorComparison.reservations v) [])
      as [|r rs] eqn:Hres;
    case_bool_decide as Hseen;
    cbn [JsString.truthy negb andb fst snd app List.length Nat.eqb]; eqb_props;
    (split; [intros H; try discriminate H | intros (Hok & Hfresh)]);
    try (exfalso; intuition congruence);
    try reflexivity;
    repeat split; try discriminate; try assumption; auto.
Qed.

(** X10.  The second copy of the script reports nothing exactly when
    every entry that replaces US products has a comparison, every
    comparison has a name and is ["pending"], or ["ready"] with a score
    and a reservation, and no id occurs twice in an entry. *)
Theorem sibling_accepts_iff (alts : list Alternative.t) :
  (failures (ValidateSibling.validateUSVendorComparisons alts) = []
   <-> Forall (Wellformed.entryOK Wellformed.vendorOKSibling) alts)
  /\ (exitStatus (ValidateSibling.main alts) = 0
      <-> Forall (Wellformed.entryOK Wellformed.vendorOKSibling) alts).
Proof.
  pose proof (proj1 (validate_clean ValidateSibling.checkVendor
                       ValidateSibling.checkAlternative
                       ValidateSibling.validateUSVendorComparisons
                       Wellformed.vendorOKSibling
                       sibling_shift sibling_clean
                       (fun fs n alt => eq_refl) (fun alts => eq_refl) alts))
    as Hclean.
  split; [exact Hclean|]. rewrite <- Hclean. unfold ValidateSibling.main.
  destruct (failures (ValidateSibling.validateUSVendorComparisons alts)); cbn;
    split; intros H; try reflexivity; try discriminate; try congruence.
Qed.

(** X11.  [comparedVendors] is the number of comparisons in the whole
    catalogue, in both copies of the script: entries reported for having
    none do not change it. *)
Theorem compared_vendors_total (alts : list Alternative.t) :
  comparedVendors (validateUSVendorComparisons alts)
  = list_sum
      (map (fun alt =>
              List.length
                (TrustScore.orElse (Alternative.usVendorComparisons alt) []))
         alts)
  /\ comparedVendors (ValidateSibling.validateUSVendorComparisons alts)
     = comparedVendors (validateUSVendorComparisons alts).
Proof.
  pose proof (proj2 (validate_clean checkVendor checkAlternative
                       validateUSVendorComparisons Wellformed.vendorOK
                       script_shift script_clean
                       (fun fs n alt => eq_refl) (fun alts => eq_refl) alts))
    as H1.
  pose proof (proj2 (validate_clean ValidateSibling.checkVendor
                       ValidateSibling.checkAlternative
                       ValidateSibling.validateUSVendorComparisons
                       Wellformed.vendorOKSibling
                       sibling_shift sibling_clean
                       (fun fs n alt => eq_refl) (fun alts => eq_refl) alts))
    as H2.
  split; [exact H1 | congruence].
Qed.

(** X12.  The second copy reports a ["ready"] comparison that has no
    reservation, wherever it stands in the catalogue. *)
Theorem sibling_reports_missing_reservations (alts : list Alternative.t)
    (alt : Alternative.t) (v : USVendorComparison.t) :
  In alt alts ->
  In v (TrustScore.orElse (Alternative.usVendorComparisons alt) []) ->
  USVendorComparison.trustScoreStatus v = "ready" ->
  TrustScore.orElse (USVendorComparison.reservations v) [] = [] ->
  In (Alternative.id alt ++ ":" ++ USVendorComparison.id v
        ++ " has trustScoreStatus=" ++ dq ++ "ready" ++ dq
        ++ " but zero reservations.")
     (failures (ValidateSibling.validateUSVendorComparisons alts)).
Proof.
  intros Hin Hv Hst Hres.
  apply (vendor_reports ValidateSibling.checkVendor
           ValidateSibling.checkAlternative
           ValidateSibling.validateUSVendorComparisons
           Wellformed.vendorOKSibling sibling_shift sibling_clean
           (fun fs n alt => eq_refl) (fun alts => eq_refl) alts alt v _ Hin Hv).
  intros seen. unfold ValidateSibling.checkVendor. rewrite Hst, Hres.
  change (String.eqb "ready" "ready") with true.
  change (List.length (@nil Reservation.t) =? 0)%nat with true.
  unfold pushIf, push.
  repeat match goal with
         | |- context [if ?c then _ else _] => destruct c
         end;
    cbn [fst snd]; rewrite ?in_app_iff; cbn [In]; tauto.
Qed.

Lemma sibling_reports_missing_reservations_witness :
  In ("tuta:gmail has trustScoreStatus=" ++ dq ++ "ready" ++ dq
        ++ " but zero reservations.")
     (failures
        (ValidateSibling.validateUSVendorComparisons
           [Samples.tuta;
            Samples.withVendors "tuta" ["Gmail"]
              (Some [Samples.vendor "gmail" "ready" (Some 3) None])])).
Proof.
  apply (sibling_reports_missing_reservations
           [Samples.tuta;
            Samples.withVendors "tuta" ["Gmail"]
              (Some [Samples.vendor "gmail" "ready" (Some 3) None])]
           (Samples.withVendors "tuta" ["Gmail"]
              (Some [Samples.vendor "gmail" "ready" (Some 3) None]))
           (Samples.vendor "gmail" "ready" (Some 3) None)).
  - right; left; reflexivity.
  - left; reflexivity.
  - reflexivity.
  - reflexivity.
Defined.

(** X13.  The two copies of the script accept the same catalogues as
    long as every ["ready"] comparison has a reservation and no
    ["pending"] comparison has a score, the two cases each copy leaves
    to the other. *)
Theorem copies_agree (alts : list Alternative.t) :
  Forall
    (fun alt =>
       Forall
         (fun v =>
            (USVendorComparison.trustScoreStatus v = "ready" ->
             TrustScore.orElse (USVendorComparison.reservations v) [] <> [])
            /\ (USVendorComparison.trustScoreStatus v = "pending" ->
                USVendorComparison.trustScore v = None))
         (TrustScore.orElse (Alternative.usVendorComparisons alt) []))
    alts ->
  (failures (validateUSVendorComparisons alts) = []
   <-> failures (ValidateSibling.validateUSVendorComparisons alts) = []).
Proof.
  intros Hcover.
  rewrite (proj1 (validate_clean checkVendor checkAlternative
                    validateUSVendorComparisons Wellformed.vendorOK
                    script_shift script_clean
                    (fun fs n alt => eq_refl) (fun alts => eq_refl) alts)).
  rewrite (proj1 (validate_clean ValidateSibling.checkVendor
                    ValidateSibling.checkAlternative
                    ValidateSibling.validateUSVendorComparisons
                    Wellformed.vendorOKSibling
                    sibling_shift sibling_clean
                    (fun fs n alt => eq_refl) (fun alts => eq_refl) alts)).
  rewrite !List.Forall_forall in *.
  assert (Hsame : forall alt, In alt alts ->
            (Wellformed.entryOK Wellformed.vendorOK alt
             <-> Wellformed.entryOK Wellformed.vendorOKSibling alt)).
  { intros alt Hin. specialize (Hcover alt Hin).
    rewrite List.Forall_forall in Hcover.
    unfold Wellformed.entryOK. cbv zeta. rewrite !List.Forall_forall.
    assert (Hv : forall v,
              In v (TrustScore.orElse (Alternative.usVendorComparisons alt) []) ->
              (Wellformed.vendorOK v <-> Wellformed.vendorOKSibling v)).
    { intros v Hvin. destruct (Hcover v Hvin) as [Hready Hpending].
      unfold Wellformed.vendorOK, Wellformed.vendorOKSibling. intuition. }
    split; intros (H1 & H2 & H3);
      (split; [exact H1 | split; [|exact H3]]);
      intros v Hvin; apply (Hv v Hvin), H2, Hvin. }
  split; intros H alt Hin; apply (Hsame alt Hin), H, Hin.
Qed.

Lemma copies_agree_witness :
  failures
    (validateUSVendorComparisons
       [Samples.withVendors "tuta" ["Gmail"]
          (Some [Samples.vendor "gmail" "ready" (Some 3) (Some [Samples.concern]);
                 Samples.vendor "outlook" "pending" None None])]) = []
  <-> failures
        (ValidateSibling.validateUSVendorComparisons
           [Samples.withVendors "tuta" ["Gmail"]
              (Some [Samples.vendor "gmail" "ready" (Some 3) (Some [Samples.concern]);
                     Samples.vendor "outlook" "pending" None None])]) = [].
Proof.
  apply copies_agree.
  repeat constructor; cbn; intros; congruence.
Defined.

(** X14.  The failures of a catalogue are the failures of its parts, one
    after the other, so a failing entry hides nothing behind it; and a
    failing run prints one line for each failure under the heading. *)
Theorem failures_concatenate (xs ys : list Alternative.t) :
  failures (validateUSVendorComparisons (xs ++ ys))
  = (failures (validateUSVendorComparisons xs)
     ++ failures (validateUSVendorComparisons ys))%list
  /\ (failures (validateUSVendorComparisons (xs ++ ys)) <> [] ->
      List.length (stderr (main (xs ++ ys)))
      = S (List.length (failures (validateUSVendorComparisons xs))
           + List.length (failures (validateUSVendorComparisons ys))))
  /\ (failures (validateUSVendorComparisons (xs ++ ys)) = [] ->
      stderr (main (xs ++ ys)) = []).
Proof.
  pose proof (ValidateFacts.failures_app xs ys) as Happ.
  split; [exact Happ|]. unfold main.
  destruct (failures (validateUSVendorComparisons (xs ++ ys))) as [|m ms] eqn:Hf.
  - split; [congruence | reflexivity].
  - split; [|discriminate]. intros _. cbn [Nat.ltb Nat.leb List.length stderr].
    change (0 <? S (List.length ms))%nat with true. cbn [stderr List.length].
    rewrite length_map, <- length_app, <- Happ. reflexivity.
Qed.

Lemma failures_concatenate_witness :
  List.length
    (stderr
       (main
          ([Samples.withVendors "a" ["Gmail"] None]
           ++ [Samples.withVendors "b" ["Gmail"]
                 (Some [Samples.vendor "gmail" "ready" None None])])))
  = 3%nat.
Proof.
  rewrite (proj1 (proj2 (failures_concatenate
                           [Samples.withVendors "a" ["Gmail"] None]
                           [Samples.withVendors "b" ["Gmail"]
                              (Some [Samples.vendor "gmail" "ready" None None])]))).
  - reflexivity.
  - vm_compute. discriminate.
Defined.

Lemma missing_comparisons_reported_witness :
  In ("a: missing usVendorComparisons despite replacesUS entries.")
     (failures
        (validateUSVendorComparisons
           [Samples.tuta; Samples.withVendors "a" ["Gmail"] (Some [])])).
Proof.
  apply (ValidateFacts.missing_comparisons_reported
           [Samples.tuta; Samples.withVendors "a" ["Gmail"] (Some [])]
           (Samples.withVendors "a" ["Gmail"] (Some []))).
  - right; left; reflexivity.
  - discriminate.
  - reflexivity.
Defined.

Lemma duplicate_id_reported_witness :
  In ("a: duplicate vendor id " ++ dq ++ "gmail" ++ dq
        ++ " in usVendorComparisons.")
     (failures
        (validateUSVendorComparisons
           [Samples.withVendors "a" ["Gmail"]
              (Some [Samples.vendor "gmail" "pending" None None;
                     Samples.vendor "outlook" "pending" None None;
                     Samples.vendor "gmail" "ready" (Some 2) None])])).
Proof.
  apply (ValidateFacts.duplicate_id_reported
           [Samples.withVendors "a" ["Gmail"]
              (Some [Samples.vendor "gmail" "pending" None None;
                     Samples.vendor "outlook" "pending" None None;
                     Samples.vendor "gmail" "ready" (Some 2) None])]
           (Samples.withVendors "a" ["Gmail"]
              (Some [Samples.vendor "gmail" "pending" None None;
                     Samples.vendor "outlook" "pending" None None;
                     Samples.vendor "gmail" "ready" (Some 2) None]))
           [] [Samples.vendor "outlook" "pending" None None] []
           (Samples.vendor "gmail" "pending" None None)
           (Samples.vendor "gmail" "ready" (Some 2) None)).
  - left; reflexivity.
  - reflexivity.
  - reflexivity.
Defined.

Lemma ready_without_score_reported_witness :
  In ("a:gmail has trustScoreStatus=" ++ dq ++ "ready" ++ dq
        ++ " but trustScore is not a number (got undefined).")
     (failures
        (validateUSVendorComparisons
           [Samples.withVendors "a" ["Gmail"]
              (Some [Samples.vendor "gmail" "ready" None None])])).
Proof.
  apply (ValidateFacts.ready_without_score_reported
           [Samples.withVendors "a" ["Gmail"]
              (Some [Samples.vendor "gmail" "ready" None None])]
           (Samples.withVendors "a" ["Gmail"]
              (Some [Samples.vendor "gmail" "ready" None None]))
           (Samples.vendor "gmail" "ready" None None)).
  - left; reflexivity.
  - left; reflexivity.
  - reflexivity.
  - reflexivity.
Defined.

Lemma pending_with_score_reported_witness :
  In ("a:gmail has trustScoreStatus=" ++ dq ++ "pending" ++ dq
        ++ " but unexpectedly has a trustScore value.")
     (failures
        (validateUSVendorComparisons
           [Samples.withVendors "a" ["Gmail"]
              (Some [Samples.vendor "gmail" "pending" (Some 4) None])])).
Proof.
  apply (ValidateFacts.pending_with_score_reported
           [Samples.withVendors "a" ["Gmail"]
              (Some [Samples.vendor "gmail" "pending" (Some 4) None])]
           (Samples.withVendors "a" ["Gmail"]
              (Some [Samples.vendor "gmail" "pending" (Some 4) None]))
           (Samples.vendor "gmail" "pending" (Some 4) None) 4).
  - left; reflexivity.
  - left; reflexivity.
  - reflexivity.
  - reflexivity.
Defined.

End ValidateMore.

(** ** Module resolution *)

Module ResolveFacts.
Import Resolve.

Lemma firstAccepted_some (accept : string -> bool) (cs : list string)
    (c : string) :
  firstAccepted accept cs = Some c <->
  exists pre post,
    cs = (pre ++ c :: post)%list /\ accept c = true
    /\ Forall (fun x => accept x = false) pre.
Proof.
  induction cs as [|x cs IH]; cbn [firstAccepted].
  - split; [discriminate|]. intros (pre & post & H & _).
    destruct pre; discriminate.
  - destruct (accept x) eqn:Hx.
    + split.
      * intros [= <-]. exists [], cs. repeat split; auto.
      * intros (pre & post & Hcs & Hc & Hpre). destruct pre as [|y pre].
        -- injection Hcs as <- _. reflexivity.
        -- injection Hcs as <- _. inversion Hpre; congruence.
    + rewrite IH. split.
      * intros (pre & post & -> & Hc & Hpre). exists (x :: pre), post.
        repeat split; auto.
      * intros (pre & post & Hcs & Hc & Hpre). destruct pre as [|y pre].
        -- injection Hcs as <- _. congruence.
        -- injection Hcs as <- ->. inversion Hpre; subst.
           exists pre, post. repeat split; auto.
Qed.

Lemma firstAccepted_none (accept : string -> bool) (cs : list string) :
  firstAccepted accept cs = None <-> Forall (fun x => accept x = false) cs.
Proof.
  induction cs as [|x cs IH]; cbn [firstAccepted].
  - split; [constructor | reflexivity].
  - destruct (accept x) eqn:Hx.
    + split; [discriminate|]. intros H. inversion H; congruence.
    + rewrite IH. split; [constructor; assumption|].
      intros H. inversion H; assumption.
Qed.

Lemma firstAccepted_ext (f g : string -> bool) (cs : list string) :
  (forall c, In c cs -> f c = g c) -> firstAccepted f cs = firstAccepted g cs.
Proof.
  induction cs as [|x cs IH]; intros Hfg; [reflexivity|].
  cbn [firstAccepted]. rewrite (Hfg x) by (left; reflexivity).
  rewrite IH; [reflexivity|]. intros c Hc. apply Hfg. right. exact Hc.
Qed.

(** X15.  [resolveTsPath] returns the first of its five candidates that
    exists, and throws exactly when none does; what exists at the direct
    path wins, whatever it is. *)
Theorem resolve_first_existing (resolve join : string -> string -> string)
    (existsSync : string -> bool) (fromDir specifier : string) :
  let cs := candidates resolve join fromDir specifier in
  let outcome := resolveTsPath resolve join existsSync fromDir specifier in
  (forall p, outcome = Resolved p <->
     exists pre post,
       cs = (pre ++ p :: post)%list /\ existsSync p = true
       /\ Forall (fun x => existsSync x = false) pre)
  /\ (outcome = Thrown (unresolved fromDir specifier)
      <-> Forall (fun x => existsSync x = false) cs)
  /\ (existsSync (resolve fromDir specifier) = true ->
      outcome = Resolved (resolve fromDir specifier)).
Proof.
  intros cs outcome. unfold outcome, resolveTsPath. fold cs. split; [|split].
  - intros p. rewrite <- firstAccepted_some.
    destruct (firstAccepted existsSync cs); split; congruence.
  - rewrite <- firstAccepted_none.
    destruct (firstAccepted existsSync cs); split; congruence.
  - intros Hdirect. unfold cs, candidates. cbn [firstAccepted].
    rewrite Hdirect. reflexivity.
Qed.

Lemma resolve_first_existing_witness :
  resolveTsPath MoreSamples.resolve MoreSamples.join MoreSamples.existsSync
    "/src" "types"
  = Resolved "/src/types".
Proof.
  apply (proj2 (proj2 (resolve_first_existing MoreSamples.resolve
                         MoreSamples.join MoreSamples.existsSync "/src" "types"))).
  reflexivity.
Defined.

(** X16.  The second copy only ever returns a path that exists and is a
    file; it agrees with the first copy when every existing candidate is
    a file, and steps over a directory at the direct path to the
    [index.ts] inside it. *)
Theorem resolve_sibling_files_only (resolve join : string -> string -> string)
    (existsSync isFile : string -> bool) (fromDir specifier : string) :
  let cs := candidates resolve join fromDir specifier in
  let direct := resolve fromDir specifier in
  let outcome :=
    resolveTsPathSibling resolve join existsSync isFile fromDir specifier in
  (forall p, outcome = Resolved p ->
     In p cs /\ existsSync p = true /\ isFile p = true)
  /\ ((forall c, In c cs -> existsSync c = true -> isFile c = true) ->
      outcome = resolveTsPath resolve join existsSync fromDir specifier)
  /\ (isFile direct = false ->
      existsSync (direct ++ ".ts") = false ->
      existsSync (direct ++ ".tsx") = false ->
      existsSync (join direct "index.ts") = true ->
      isFile (join direct "index.ts") = true ->
      outcome = Resolved (join direct "index.ts")).
Proof.
  intros cs direct outcome. unfold outcome, resolveTsPathSibling. fold cs.
  split; [|split].
  - intros p Hp.
    destruct (firstAccepted _ cs) as [c|] eqn:Hfirst; [|discriminate].
    injection Hp as ->. apply firstAccepted_some in Hfirst.
    destruct Hfirst as (pre & post & Hcs & Hacc & _).
    apply andb_true_iff in Hacc. destruct Hacc as [He Hf].
    repeat split; auto. rewrite Hcs. apply in_app_iff. right. left. reflexivity.
  - intros Hfiles. unfold resolveTsPath. fold cs.
    rewrite (firstAccepted_ext
               (fun candidate => existsSync candidate && isFile candidate)
               existsSync cs); [reflexivity|].
    intros c Hc. destruct (existsSync c) eqn:He; [|reflexivity].
    rewrite (Hfiles c Hc He). reflexivity.
  - intros Hdir Hts Htsx Hidx Hfile. unfold cs, candidates. fold direct.
    cbn [firstAccepted].
    rewrite Hdir, Hts, Htsx, Hidx, Hfile, andb_false_r. reflexivity.
Qed.

Lemma resolve_sibling_files_only_witness :
  resolveTsPathSibling MoreSamples.resolve MoreSamples.join
    MoreSamples.existsSync MoreSamples.isFile "/src" "types"
  = Resolved "/src/types/index.ts".
Proof.
  apply (proj2 (proj2 (resolve_sibling_files_only MoreSamples.resolve
                         MoreSamples.join MoreSamples.existsSync
                         MoreSamples.isFile "/src" "types")));
    reflexivity.
Defined.

End ResolveFacts.

(** ** Localized descriptions *)

Module LocalizedFacts.
Import Localized.

(** X17.  The German text is used only for a language that starts with
    ["de"] and only if it is not empty; otherwise the description is
    returned, so an entry with a description never shows an empty text. *)
Theorem localized_description_fallback (a : t) (language : string) :
  let shown := getLocalizedAlternativeDescription a language in
  (startsWith language "de" = false ->
   shown = Alternative.description (alternative a))
  /\ (Alternative.description (alternative a) <> "" -> shown <> "")
  /\ (shown = Alternative.description (alternative a)
      \/ (localizedDescriptions a = Some (Some shown)
          /\ startsWith language "de" = true /\ shown <> "")).
Proof.
  intros shown. unfold shown, getLocalizedAlternativeDescription.
  destruct (localizedDescriptions a) as [[text|]|].
  - destruct (startsWith language "de") eqn:Hde; cbn [andb].
    + destruct text as [|c text]; cbn [JsString.truthy].
      * repeat split; auto.
      * repeat split; try discriminate. right. repeat split. discriminate.
    + repeat split; auto.
  - repeat split; auto.
  - repeat split; auto.
Qed.

Lemma localized_description_fallback_witness :
  getLocalizedAlternativeDescription
    {| alternative := Samples.mailbox;
       localizedDescriptions := Some (Some "E-Mail aus Berlin") |} "en-GB"
  = "Email hosting from Berlin"
  /\ getLocalizedAlternativeDescription
       {| alternative := Samples.mailbox;
          localizedDescriptions := Some (Some "") |} "de-AT"
     <> "".
Proof.
  split.
  - apply (proj1 (localized_description_fallback
                    {| alternative := Samples.mailbox;
                       localizedDescriptions := Some (Some "E-Mail aus Berlin") |}
                    "en-GB")).
    reflexivity.
  - apply (proj1 (proj2 (localized_description_fallback
                           {| alternative := Samples.mailbox;
                              localizedDescriptions := Some (Some "") |}
                           "de-AT"))).
    discriminate.
Defined.

End LocalizedFacts.

(** ** The query string *)

Module UrlSearchParamsFacts.
Import UrlSearchParams.

Lemma named_same (name value : string) : named name (name, value) = true.
Proof. unfold named. cbn. apply String.eqb_refl. Qed.

Lemma named_other (n m : string) (kv : string * string) :
  n <> m -> named n kv = true -> named m kv = false.
Proof.
  unfold named. intros Hne Hn. apply String.eqb_eq in Hn.
  apply String.eqb_neq. congruence.
Qed.

Lemma filter_delete_same (name : string) (params : t) :
  List.filter (named name) (delete name params) = [].
Proof.
  unfold delete. induction params as [|kv rest IH]; [reflexivity|].
  cbn [List.filter]. destruct (named name kv) eqn:Hkv; cbn [negb List.filter];
    [exact IH|]. rewrite Hkv. exact IH.
Qed.

Lemma filter_delete_other (n m : string) (params : t) :
  n <> m ->
  List.filter (named m) (delete n params) = List.filter (named m) params.
Proof.
  intros Hne. unfold delete. induction params as [|kv rest IH]; [reflexivity|].
  cbn [List.filter]. destruct (named n kv) eqn:Hkv; cbn [negb List.filter].
  - rewrite (named_other n m kv Hne Hkv). exact IH.
  - rewrite IH. reflexivity.
Qed.

Lemma filter_set_same (name value : string) (params : t) :
  List.filter (named name) (set name value params) = [(name, value)].
Proof.
  induction params as [|kv rest IH]; cbn [set List.filter].
  - rewrite named_same. reflexivity.
  - destruct (named name kv) eqn:Hkv; cbn [List.filter].
    + rewrite named_same, filter_delete_same. reflexivity.
    + rewrite Hkv. exact IH.
Qed.

Lemma filter_set_other (n m value : string) (params : t) :
  n <> m ->
  List.filter (named m) (set n value params) = List.filter (named m) params.
Proof.
  intros Hne. induction params as [|kv rest IH]; cbn [set List.filter].
  - rewrite (named_other n m (n, value) Hne (named_same n value)). reflexivity.
  - destruct (named n kv) eqn:Hkv; cbn [List.filter].
    + rewrite (named_other n m (n, value) Hne (named_same n value)).
      rewrite (named_other n m kv Hne Hkv). apply filter_delete_other, Hne.
    + rewrite IH. reflexivity.
Qed.

Lemma filter_appended (n m : string) (values : list string) :
  forall params,
    List.filter (named m)
      (fold_left (fun params value => append n value params) values params)
    = (List.filter (named m) params
       ++ if String.eqb n m then map (fun value => (n, value)) values else [])%list.
Proof.
  induction values as [|value values IH]; intros params; cbn [fold_left].
  - destruct (String.eqb n m); rewrite app_nil_r; reflexivity.
  - rewrite IH. unfold append. rewrite List.filter_app. cbn [List.filter].
    unfold named at 2. cbn [fst].
    destruct (String.eqb n m); cbn [map]; rewrite <- app_assoc; reflexivity.
Qed.

End UrlSearchParamsFacts.

(** ** The browse page: handlers *)

Module BrowsePageFacts.
Import BrowsePage.

Lemma get_q_after_set (term : string) (params : UrlSearchParams.t) :
  UrlSearchParams.get (UrlSearchParams.set "q" term params) "q" = Some term.
Proof.
  unfold UrlSearchParams.get.
  rewrite UrlSearchParamsFacts.filter_set_same. reflexivity.
Qed.

Lemma get_q_after_delete (params : UrlSearchParams.t) :
  UrlSearchParams.get (UrlSearchParams.delete "q" params) "q" = None.
Proof.
  unfold UrlSearchParams.get.
  rewrite UrlSearchParamsFacts.filter_delete_same. reflexivity.
Qed.

(** X18.  What the user types is what the page searches for: after
    [handleSearchChange term] the search term is [term], for the empty
    term too; the categories in the URL and the local filters stay as
    they were. *)
Theorem search_change_round_trip (categories : list Category.t)
    (term : string) (st : State) :
  let st' := handleSearchChange term st in
  searchTerm st' = term
  /\ UrlSearchParams.getAll (searchParams st') "category"
     = UrlSearchParams.getAll (latestParams st) "category"
  /\ (latestParams st = searchParams st ->
      selectedFilters categories st' = selectedFilters categories st)
  /\ latestParams st' = searchParams st'.
Proof.
  intros st'. unfold st', handleSearchChange, searchTerm, navigate.
  cbn [searchParams latestParams].
  assert (Hcat :
    UrlSearchParams.getAll
      (if JsString.truthy term
       then UrlSearchParams.set "q" term (latestParams st)
       else UrlSearchParams.delete "q" (latestParams st)) "category"
    = UrlSearchParams.getAll (latestParams st) "category").
  { unfold UrlSearchParams.getAll. destruct (JsString.truthy term).
    - rewrite UrlSearchParamsFacts.filter_set_other by discriminate. reflexivity.
    - rewrite UrlSearchParamsFacts.filter_delete_other by discriminate.
      reflexivity. }
  split; [|split; [exact Hcat|split; [|reflexivity]]].
  - destruct term as [|c term]; cbn [JsString.truthy].
    + rewrite get_q_after_delete. reflexivity.
    + rewrite get_q_after_set. reflexivity.
  - intros Hsync. unfold selectedFilters, categoryFilters.
    cbn [searchParams countryFilters pricingFilters openSourceOnly].
    rewrite Hcat, Hsync. reflexivity.
Qed.

Lemma search_change_round_trip_witness :
  selectedFilters [MoreSamples.emailCategory]
    (handleSearchChange "mail" (initial [("category", "email")]))
  = selectedFilters [MoreSamples.emailCategory] (initial [("category", "email")]).
Proof.
  apply (proj1 (proj2 (proj2 (search_change_round_trip
                                [MoreSamples.emailCategory] "mail"
                                (initial [("category", "email")]))))).
  reflexivity.
Defined.

(** X19.  After a change of the category filter the active categories
    are the chosen values that are ids of the categories table, in the
    order chosen; earlier choices are gone and the search term stays. *)
Theorem category_change_replaces (categories : list Category.t)
    (values : list string) (st : State) :
  let st' := handleFilterChange (category values) st in
  categoryFilters categories st'
  = List.filter (fun c => TrustScore.has (validCategoryIds categories) c) values
  /\ UrlSearchParams.get (searchParams st') "q"
     = UrlSearchParams.get (latestParams st) "q"
  /\ (latestParams st = searchParams st -> searchTerm st' = searchTerm st)
  /\ (Forall (fun c => In c (map Category.id categories)) values ->
      categoryFilters categories st' = values).
Proof.
  intros st'. unfold st', handleFilterChange, categoryFilters, searchTerm,
    navigate, UrlSearchParams.getAll, UrlSearchParams.get.
  cbn [searchParams latestParams].
  rewrite !UrlSearchParamsFacts.filter_appended.
  rewrite UrlSearchParamsFacts.filter_delete_same.
  rewrite UrlSearchParamsFacts.filter_delete_other by discriminate.
  change (String.eqb "category" "category") with true.
  change (String.eqb "category" "q") with false.
  rewrite app_nil_r. cbn [app]. rewrite map_map. cbn [snd]. rewrite map_id.
  split; [reflexivity|]. split; [reflexivity|]. split.
  - intros Hsync. rewrite Hsync. reflexivity.
  - intros Hall. induction values as [|v values IH]; [reflexivity|].
    inversion Hall as [|? ? Hv Hrest]; subst. cbn [List.filter].
    unfold validCategoryIds at 1.
    rewrite (proj2 (TrustScoreFacts.has_list_to_set _ _) Hv).
    f_equal. apply IH. exact Hrest.
Qed.

Lemma category_change_replaces_witness :
  categoryFilters [MoreSamples.emailCategory; MoreSamples.otherCategory]
    (handleFilterChange (category ["other"; "email"])
       (initial [("category", "email"); ("q", "mail")]))
  = ["other"; "email"]
  /\ searchTerm
       (handleFilterChange (category ["other"; "email"])
          (initial [("category", "email"); ("q", "mail")]))
     = "mail".
Proof.
  split.
  - apply (proj2 (proj2 (proj2 (category_change_replaces
                                  [MoreSamples.emailCategory;
                                   MoreSamples.otherCategory]
                                  ["other"; "email"]
                                  (initial [("category", "email"); ("q", "mail")]))))).
    constructor; [cbn; auto | constructor; [cbn; auto | constructor]].
  - rewrite (proj1 (proj2 (proj2 (category_change_replaces
                                    [MoreSamples.emailCategory;
                                     MoreSamples.otherCategory]
                                    ["other"; "email"]
                                    (initial [("category", "email"); ("q", "mail")]))))
               eq_refl).
    reflexivity.
Defined.

Lemma clear_all_params (st : State) :
  searchParams (handleClearAll st) = [] 
  \/ exists c q, searchParams (handleClearAll st) = [("q", String c q)]
                 /\ UrlSearchParams.get (latestParams st) "q" = Some (String c q).
Proof.
  unfold handleClearAll. cbn [searchParams].
  destruct (UrlSearchParams.get (latestParams st) "q") as [[|c q]|];
    cbn [JsString.truthy UrlSearchParams.set]; eauto.
Qed.

(** X20.  [handleClearAll] switches every filter off and keeps the search
    term, so the page then shows the sorted search result alone; doing it
    twice is the same as doing it once. *)
Theorem clear_all_resets (categories : list Category.t)
    (alternatives : list Alternative.t)
    (localeCompare : string -> string -> Z) (st : State) :
  let st' := handleClearAll st in
  selectedFilters categories st' = Samples.noFilters
  /\ searchTerm st'
     = TrustScore.orElse (UrlSearchParams.get (latestParams st) "q") ""
  /\ (latestParams st = searchParams st -> searchTerm st' = searchTerm st)
  /\ handleClearAll st' = st'
  /\ filteredAlternatives categories alternatives localeCompare st'
     = JsArray.sort (Browse.compareAlternatives localeCompare (sortBy st))
         (Browse.filterStage alternatives (searchTerm st') Samples.noFilters).
Proof.
  intros st'.
  assert (Hterm :
    searchTerm st'
    = TrustScore.orElse (UrlSearchParams.get (latestParams st) "q") "").
  { unfold st', handleClearAll, searchTerm. cbn [searchParams].
    destruct (UrlSearchParams.get (latestParams st) "q") as [[|c q]|];
      reflexivity. }
  assert (Hfilters : selectedFilters categories st' = Samples.noFilters).
  { unfold selectedFilters, categoryFilters, Samples.noFilters.
    destruct (clear_all_params st) as [Hp|(c & q & Hp & _)];
      fold st' in Hp; rewrite Hp; reflexivity. }
  split; [exact Hfilters|]. split; [exact Hterm|]. split; [|split].
  - intros Hsync. rewrite Hterm, Hsync. reflexivity.
  - unfold st', handleClearAll. cbn [latestParams sortBy viewMode].
    destruct (UrlSearchParams.get (latestParams st) "q") as [[|c q]|];
      reflexivity.
  - unfold filteredAlternatives, Browse.filteredAlternatives.
    rewrite Hfilters. reflexivity.
Qed.

Lemma clear_all_resets_witness :
  searchTerm
    (handleClearAll
       (handleFilterChange (openSourceOnlyChange true)
          (initial [("category", "email"); ("q", "mail")])))
  = "mail".
Proof.
  rewrite (proj1 (proj2 (proj2 (clear_all_resets [MoreSamples.emailCategory]
                                  MoreSamples.catalogue Samples.codeUnitCompare
                                  (handleFilterChange (openSourceOnlyChange true)
                                     (initial [("category", "email"); ("q", "mail")])))))
             eq_refl).
  reflexivity.
Defined.

(** X21.  The page shows the grid exactly when some entry passes the
    filters; with an empty catalogue it always says the catalogue is
    coming, and it says "no results" only over a catalogue that has
    entries. *)
Theorem body_cases (categories : list Category.t)
    (alternatives : list Alternative.t)
    (localeCompare : string -> string -> Z) (st : State) :
  let shown := filteredAlternatives categories alternatives localeCompare st in
  let page := body categories alternatives localeCompare st in
  (alternatives = [] -> page = CatalogueComingSoon)
  /\ (page = NoResultsFound -> alternatives <> [] /\ shown = [])
  /\ (shown <> [] <-> page = Grid shown)
  /\ (forall a, In a shown -> In a alternatives).
Proof.
  intros shown page. unfold page, body. fold shown.
  assert (Hsub : forall a, In a shown -> In a alternatives).
  { intros a Ha. unfold shown, filteredAlternatives, Browse.filteredAlternatives in Ha.
    apply JsArrayFacts.sort_In, BrowseFacts.filterStage_In in Ha. apply Ha. }
  split; [|split; [|split; [|exact Hsub]]].
  - intros Hnil. destruct shown as [|a rest] eqn:Hshown.
    + rewrite Hnil. reflexivity.
    + exfalso. specialize (Hsub a (or_introl eq_refl)). rewrite Hnil in Hsub.
      destruct Hsub.
  - destruct shown as [|a rest]; cbn [List.length Nat.ltb Nat.leb].
    + destruct alternatives; cbn; [discriminate|]. intros _. split; [discriminate|reflexivity].
    + discriminate.
  - destruct shown as [|a rest]; cbn [List.length].
    + split; [congruence|]. destruct alternatives; cbn; discriminate.
    + split; [reflexivity | discriminate].
Qed.

Lemma body_cases_witness :
  body [MoreSamples.emailCategory] [] Samples.codeUnitCompare
    (initial [("q", "mail")])
  = CatalogueComingSoon.
Proof.
  apply (proj1 (body_cases [MoreSamples.emailCategory] [] Samples.codeUnitCompare
                  (initial [("q", "mail")]))).
  reflexivity.
Defined.

End BrowsePageFacts.

(** ** More on the query pipeline *)

Module BrowseMore.
Import Browse.

Lemma cond_filter {A} (c : bool) (p : A -> bool) (l : list A) :
  (if c then List.filter p l else l) = List.filter (fun a => negb c || p a) l.
Proof.
  destruct c; cbn [negb orb]; [reflexivity|].
  induction l as [|x l IH]; [reflexivity|]. cbn [List.filter]. congruence.
Qed.

Lemma filter_twice {A} (p q : A -> bool) (l : list A) :
  List.filter p (List.filter q l) = List.filter (fun a => q a && p a) l.
Proof.
  induction l as [|x l IH]; [reflexivity|]. cbn [List.filter].
  destruct (q x); cbn [andb List.filter]; [destruct (p x)|]; congruence.
Qed.

(** The five steps are one filter by a predicate on single entries. *)
Lemma filterStage_as_filter (term : string) (f : SelectedFilters.t) :
  exists keep, forall xs, filterStage xs term f = List.filter keep xs.
Proof.
  eexists. intros xs. unfold filterStage. cbv zeta.
  rewrite !cond_filter, !filter_twice. reflexivity.
Qed.

(** X22.  The filters look at one entry at a time: the result over two
    catalogues put together is the two results put together, filtering a
    result again by the same criteria changes nothing, and the order of
    the catalogue is kept. *)
Theorem filter_stage_entrywise (xs ys : list Alternative.t) (term : string)
    (f : SelectedFilters.t) :
  filterStage (xs ++ ys) term f
  = (filterStage xs term f ++ filterStage ys term f)%list
  /\ filterStage (filterStage xs term f) term f = filterStage xs term f
  /\ (List.length (filterStage xs term f) <= List.length xs)%nat
  /\ (List.NoDup xs -> List.NoDup (filterStage xs term f)).
Proof.
  destruct (filterStage_as_filter term f) as (keep & Hkeep).
  rewrite !Hkeep. split; [apply List.filter_app|]. split; [|split].
  - rewrite filter_twice. apply filter_ext. intros a. destruct (keep a); reflexivity.
  - apply filter_length_le.
  - apply List.NoDup_filter.
Qed.

Lemma filter_stage_entrywise_witness :
  List.NoDup (filterStage MoreSamples.catalogue "mail" Samples.onlyOpenSource).
Proof.
  apply (proj2 (proj2 (proj2 (filter_stage_entrywise MoreSamples.catalogue []
                                "mail" Samples.onlyOpenSource)))).
  repeat constructor; cbn; intuition discriminate.
Defined.

(** X23.  Under a comparison that flips its sign with its arguments and
    is transitive, the result is a rearrangement of what the filters
    kept, in ascending order of the key, and entries with equal keys stay
    in catalogue order; for the key ['name'] that is ascending order of
    the names. *)
Theorem sorted_and_stable_by_key (localeCompare : string -> string -> Z)
    (alts : list Alternative.t) (term : string) (f : SelectedFilters.t)
    (sortBy : SortBy) :
  (forall a b, localeCompare a b <= 0 <-> 0 <= localeCompare b a) ->
  (forall a b c,
     localeCompare a b <= 0 -> localeCompare b c <= 0 -> localeCompare a c <= 0) ->
  let result := filteredAlternatives localeCompare alts term f sortBy in
  Permutation result (filterStage alts term f)
  /\ StronglySorted
       (fun a b => compareAlternatives localeCompare sortBy a b <= 0) result
  /\ (forall k,
        List.filter
          (fun y => compareAlternatives localeCompare sortBy k y =? 0) result
        = List.filter
            (fun y => compareAlternatives localeCompare sortBy k y =? 0)
            (filterStage alts term f))
  /\ (sortBy = "name" ->
      StronglySorted
        (fun a b => localeCompare (Alternative.name a) (Alternative.name b) <= 0)
        result).
Proof.
  intros flip trans result. unfold result, filteredAlternatives.
  pose proof (JsArrayFacts.sort_ascending
                (compareAlternatives localeCompare sortBy)
                (BrowseFacts.compareAlternatives_flip localeCompare flip sortBy)
                (BrowseFacts.compareAlternatives_trans localeCompare trans sortBy)
                (filterStage alts term f)) as Hsorted.
  split; [apply JsArrayFacts.sort_perm|]. split; [exact Hsorted|]. split.
  - intros k. apply JsArrayFacts.sort_stable.
    + apply BrowseFacts.compareAlternatives_flip, flip.
    + apply BrowseFacts.compareAlternatives_trans, trans.
  - intros ->. exact Hsorted.
Qed.

Lemma sorted_and_stable_by_key_witness :
  StronglySorted
    (fun a b =>
       Samples.codeUnitCompare (Alternative.name a) (Alternative.name b) <= 0)
    (filteredAlternatives Samples.codeUnitCompare MoreSamples.catalogue ""
       Samples.noFilters "name").
Proof.
  apply (sorted_and_stable_by_key Samples.codeUnitCompare MoreSamples.catalogue ""
           Samples.noFilters "name"
           BrowseFacts.codeUnitCompare_flip BrowseFacts.codeUnitCompare_trans).
  reflexivity.
Defined.

End BrowseMore.

(** ** The landing page *)

Module LandingFacts.
Import Landing.

(** X24.  The landing page's open-source number is the number of entries
    the browse page lists with only the open-source filter on, under any
    sort key. *)
Theorem open_source_count_matches_browse
    (localeCompare : string -> string -> Z) (alts : list Alternative.t)
    (sortBy : Browse.SortBy) :
  openSourceCount alts
  = List.length
      (Browse.filteredAlternatives localeCompare alts "" Samples.onlyOpenSource
         sortBy)
  /\ (openSourceCount alts <= totalAlternatives alts)%nat.
Proof.
  unfold openSourceCount, totalAlternatives, Browse.filteredAlternatives.
  rewrite JsArrayFacts.sort_length. split; [reflexivity|].
  apply filter_length_le.
Qed.

(** X25.  The number on a category's card is the number of entries the
    browse page lists on arrival through the card's link. *)
Theorem card_count_matches_link (categories : list Category.t)
    (alts : list Alternative.t) (localeCompare : string -> string -> Z)
    (cat : Category.t) :
  In cat categories ->
  List.length
    (BrowsePage.filteredAlternatives categories alts localeCompare
       (BrowsePage.initial (cardQuery cat)))
  = count alts cat.
Proof.
  intros Hcat.
  unfold BrowsePage.filteredAlternatives, Browse.filteredAlternatives.
  rewrite JsArrayFacts.sort_length.
  assert (Hterm : BrowsePage.searchTerm (BrowsePage.initial (cardQuery cat)) = "").
  { reflexivity. }
  assert (Hfilters :
    BrowsePage.selectedFilters categories (BrowsePage.initial (cardQuery cat))
    = {| SelectedFilters.category := [Category.id cat];
         SelectedFilters.country := [];
         SelectedFilters.pricing := [];
         SelectedFilters.openSourceOnly := false |}).
  { unfold BrowsePage.selectedFilters, BrowsePage.categoryFilters, cardQuery,
      BrowsePage.initial, UrlSearchParams.getAll.
    cbn [BrowsePage.searchParams BrowsePage.countryFilters
         BrowsePage.pricingFilters BrowsePage.openSourceOnly].
    cbn [List.filter].
    rewrite (UrlSearchParamsFacts.named_same "category" (Category.id cat)).
    cbn [map snd List.filter].
    unfold BrowsePage.validCategoryIds.
    rewrite (proj2 (TrustScoreFacts.has_list_to_set _ _)
               (in_map Category.id categories cat Hcat)).
    reflexivity. }
  rewrite Hterm, Hfilters. unfold Browse.filterStage, count. cbv zeta.
  cbn [SelectedFilters.category SelectedFilters.country SelectedFilters.pricing
       SelectedFilters.openSourceOnly List.length Nat.ltb Nat.leb
       JsString.trim JsString.trimStart JsString.trimEnd JsString.truthy].
  f_equal. apply filter_ext. intros a. unfold JsArray.includes.
  cbn [existsb]. apply orb_false_r.
Qed.

Lemma card_count_matches_link_witness :
  List.length
    (BrowsePage.filteredAlternatives
       [MoreSamples.emailCategory; MoreSamples.otherCategory]
       MoreSamples.catalogue Samples.codeUnitCompare
       (BrowsePage.initial (cardQuery MoreSamples.emailCategory)))
  = 2%nat.
Proof.
  rewrite (card_count_matches_link
             [MoreSamples.emailCategory; MoreSamples.otherCategory]
             MoreSamples.catalogue Samples.codeUnitCompare
             MoreSamples.emailCategory).
  - reflexivity.
  - left; reflexivity.
Defined.

Lemma list_sum_map_add {A} (x y : A -> nat) (cs : list A) :
  list_sum (map (fun c => (x c + y c)%nat) cs)
  = (list_sum (map x cs) + list_sum (map y cs))%nat.
Proof.
  induction cs as [|c cs IH]; [reflexivity|].
  cbn [map]. change (list_sum (?h :: ?t)) with (h + list_sum t)%nat.
  rewrite IH. lia.
Qed.

Lemma list_sum_zero {A} (cs : list A) :
  list_sum (map (fun _ => 0%nat) cs) = 0%nat.
Proof. induction cs as [|c cs IH]; [reflexivity | exact IH]. Qed.

Lemma one_card_per_entry (k : string) (cs : list Category.t) :
  List.NoDup (map Category.id cs) ->
  list_sum (map (fun c => if String.eqb k (Category.id c) then 1%nat else 0%nat) cs)
  = if existsb (fun c => String.eqb k (Category.id c)) cs then 1%nat else 0%nat.
Proof.
  induction cs as [|c cs IH]; intros Hnd; [reflexivity|].
  cbn [map] in *. inversion Hnd as [|? ? Hnotin Hnd']; subst.
  change (list_sum (?h :: ?t)) with (h + list_sum t)%nat.
  cbn [existsb]. rewrite (IH Hnd').
  destruct (String.eqb k (Category.id c)) eqn:Hk; cbn [orb]; [|reflexivity].
  apply String.eqb_eq in Hk. subst k.
  destruct (existsb _ cs) eqn:Hex; [|reflexivity].
  exfalso. apply existsb_exists in Hex. destruct Hex as (c' & Hin & Heq).
  apply String.eqb_eq in Heq. apply Hnotin. rewrite Heq. apply in_map, Hin.
Qed.

Lemma NoDup_map_filter {A B} (g : A -> B) (p : A -> bool) (l : list A) :
  List.NoDup (map g l) -> List.NoDup (map g (List.filter p l)).
Proof.
  induction l as [|x l IH]; intros Hnd; [constructor|].
  cbn [map] in Hnd. inversion Hnd as [|? ? Hnotin Hnd']; subst.
  cbn [List.filter]. destruct (p x); [|apply IH, Hnd'].
  cbn [map]. constructor; [|apply IH, Hnd'].
  intros Hin. apply Hnotin. apply in_map_iff in Hin.
  destruct Hin as (y & Hy & Hin). apply filter_In in Hin.
  rewrite <- Hy. apply in_map, Hin.
Qed.

(** X26.  When the ids of the categories table are distinct, no entry is
    counted on two cards: the counts on the cards add up to the number of
    entries whose category has a card, which is at most the total. *)
Theorem card_counts_partition (categories : list Category.t)
    (alts : list Alternative.t) :
  List.NoDup (map Category.id categories) ->
  list_sum (map (count alts) (cards categories))
  = List.length
      (List.filter
         (fun a =>
            existsb
              (fun c => String.eqb (Alternative.category a) (Category.id c))
              (cards categories))
         alts)
  /\ (list_sum (map (count alts) (cards categories)) <= totalAlternatives alts)%nat.
Proof.
  intros Hnd.
  assert (Hcards : List.NoDup (map Category.id (cards categories)))
    by (apply NoDup_map_filter, Hnd).
  assert (Hsum :
    list_sum (map (count alts) (cards categories))
    = List.length
        (List.filter
           (fun a =>
              existsb
                (fun c => String.eqb (Alternative.category a) (Category.id c))
                (cards categories))
           alts)).
  { induction alts as [|a alts IH].
    - unfold count. cbn [List.filter List.length]. apply list_sum_zero.
    - transitivity
        (list_sum
           (map (fun c =>
                   ((if String.eqb (Alternative.category a) (Category.id c)
                     then 1 else 0)
                    + count alts c)%nat)
              (cards categories))).
      + f_equal. apply map_ext. intros c. unfold count. cbn [List.filter].
        destruct (String.eqb (Alternative.category a) (Category.id c));
          reflexivity.
      + rewrite list_sum_map_add, IH, (one_card_per_entry _ _ Hcards).
        cbn [List.filter].
        destruct (existsb _ (cards categories)); reflexivity. }
  split; [exact Hsum|]. rewrite Hsum. apply filter_length_le.
Qed.

Lemma card_counts_partition_witness :
  list_sum
    (map (count MoreSamples.catalogue)
       (cards [MoreSamples.emailCategory; MoreSamples.otherCategory]))
  = 2%nat.
Proof.
  rewrite (proj1 (card_counts_partition
                    [MoreSamples.emailCategory; MoreSamples.otherCategory]
                    MoreSamples.catalogue
                    ltac:(repeat constructor; cbn; intuition discriminate))).
  reflexivity.
Defined.

End LandingFacts.
